(** * The multi-exchange intraday engine of [main.py]

    A shallow embedding of the signal scorer ([generate_signal]), the
    fetch-and-score loop, the ranking of buy signals, the opening of
    positions, the stop / take-profit check loop and the equity update,
    followed by the properties of the design document that concern them.

    Numbers.  The script computes with Python and numpy floats.  They are
    modelled by [PyFloat.float]: the rationals, computed exactly, together
    with the three special values [+inf], [-inf] and [nan], with the IEEE
    rules for them (a comparison with [nan] is false, [0/0] is [nan],
    [x/0] is an infinity as numpy computes it).  Rounding of finite results,
    overflow and the sign of zero are not modelled. *)

From Stdlib Require Import QArith Qround Lqa ZArith List String Bool.
From Stdlib Require Import Permutation Sorted Lia.
Import ListNotations.

(* ================================================================= *)
(** ** Floats *)

Module PyFloat.

Local Open Scope Q_scope.

Inductive float : Type :=
| Fin (q : Q)
| PInf
| NInf
| NaN.

Definition Qltb (a b : Q) : bool := negb (Qle_bool b a).

Definition is_nan (x : float) : bool :=
  match x with NaN => true | _ => false end.

Definition finite (x : float) : bool :=
  match x with Fin _ => true | _ => false end.

(** The rational carried by a finite float (0 for the special values). *)
Definition Qof (x : float) : Q :=
  match x with Fin q => q | _ => 0 end.

(** Equality of the numbers denoted: rationals up to [==]. *)
Definition feq (x y : float) : Prop :=
  match x, y with
  | Fin a, Fin b => a == b
  | PInf, PInf | NInf, NInf | NaN, NaN => True
  | _, _ => False
  end.

Definition fopp (x : float) : float :=
  match x with
  | Fin q => Fin (- q)
  | PInf => NInf
  | NInf => PInf
  | NaN => NaN
  end.

Definition fadd (x y : float) : float :=
  match x, y with
  | NaN, _ | _, NaN => NaN
  | Fin a, Fin b => Fin (a + b)
  | PInf, NInf | NInf, PInf => NaN
  | PInf, _ | _, PInf => PInf
  | NInf, _ | _, NInf => NInf
  end.

Definition fsub (x y : float) : float := fadd x (fopp y).

Definition inf (positive : bool) : float := if positive then PInf else NInf.

(** An infinity of sign [s] times the finite [q]. *)
Definition scale_inf (s : bool) (q : Q) : float :=
  if Qeq_bool q 0 then NaN
  else if Qltb 0 q then inf s else inf (negb s).

Definition fmul (x y : float) : float :=
  match x, y with
  | NaN, _ | _, NaN => NaN
  | Fin a, Fin b => Fin (a * b)
  | Fin a, PInf | PInf, Fin a => scale_inf true a
  | Fin a, NInf | NInf, Fin a => scale_inf false a
  | PInf, PInf | NInf, NInf => PInf
  | PInf, NInf | NInf, PInf => NInf
  end.

(** numpy's true division: no exception, [x/0] is an infinity or [nan]. *)
Definition fdiv (x y : float) : float :=
  match x, y with
  | NaN, _ | _, NaN => NaN
  | Fin a, Fin b =>
      if Qeq_bool b 0 then
        if Qeq_bool a 0 then NaN else inf (Qltb 0 a)
      else Fin (a / b)
  | Fin _, PInf | Fin _, NInf => Fin 0
  | PInf, Fin b => inf (negb (Qltb b 0))
  | NInf, Fin b => inf (Qltb b 0)
  | _, _ => NaN
  end.

(** numpy's floor division [x // y]. *)
Definition ffloordiv (x y : float) : float :=
  match x, y with
  | NaN, _ | _, NaN => NaN
  | Fin a, Fin b =>
      if Qeq_bool b 0 then fdiv x y
      else Fin (inject_Z (Qfloor (a / b)))
  | Fin a, PInf => if Qltb a 0 then Fin (-1) else Fin 0
  | Fin a, NInf => if Qltb 0 a then Fin (-1) else Fin 0
  | _, _ => NaN
  end.

Definition fltb (x y : float) : bool :=
  match x, y with
  | NaN, _ | _, NaN => false
  | Fin a, Fin b => Qltb a b
  | NInf, NInf => false
  | NInf, _ => true
  | _, NInf => false
  | PInf, _ => false
  | _, PInf => true
  end.

Definition fleb (x y : float) : bool :=
  match x, y with
  | NaN, _ | _, NaN => false
  | Fin a, Fin b => Qle_bool a b
  | NInf, _ => true
  | _, PInf => true
  | _, _ => false
  end.

Definition fgtb (x y : float) : bool := fltb y x.
Definition fgeb (x y : float) : bool := fleb y x.

(** The builtin [max(a, b)]: [b] replaces [a] only when [b > a]. *)
Definition py_max (a b : float) : float := if fgtb b a then b else a.

(** Rounding of a rational to the nearest integer, ties to even. *)
Definition round_half_even (q : Q) : Z :=
  let f := Qfloor q in
  match Qcompare (q - inject_Z f) (1 # 2) with
  | Lt => f
  | Gt => (f + 1)%Z
  | Eq => if Z.even f then f else (f + 1)%Z
  end.

(** The builtin [round(x, 2)]. *)
Definition round2 (x : float) : float :=
  match x with
  | Fin q => Fin (inject_Z (round_half_even (q * 100)) / 100)
  | _ => x
  end.

(** [Series.sum()], which skips [nan] entries. *)
Definition fsum (l : list float) : float :=
  fold_left fadd (filter (fun x => negb (is_nan x)) l) (Fin 0).

End PyFloat.
Import PyFloat.

Declare Scope pyfloat_scope.
Delimit Scope pyfloat_scope with F.
Infix "+" := fadd : pyfloat_scope.
Infix "-" := fsub : pyfloat_scope.
Infix "*" := fmul : pyfloat_scope.
Infix "/" := fdiv : pyfloat_scope.
Infix "//" := ffloordiv (at level 40, left associativity) : pyfloat_scope.
Infix "<?" := fltb : pyfloat_scope.
Infix "<=?" := fleb : pyfloat_scope.
Infix ">?" := fgtb (at level 70) : pyfloat_scope.
Infix ">=?" := fgeb (at level 70) : pyfloat_scope.
Infix "=f=" := feq (at level 70) : pyfloat_scope.

Coercion Fin : Q >-> float.

Local Open Scope string_scope.
Local Open Scope list_scope.
Local Open Scope pyfloat_scope.

(* ================================================================= *)
(** ** Settings *)

Definition INITIAL_CAPITAL : float := Fin 100000.
Definition TOP_N : nat := 5.
Definition STOP_LOSS : float := Fin 0.5.
Definition TAKE_PROFIT : float := Fin 1.
Definition TRAILING_STOP : bool := true.

Definition TSX : list string :=
  ["SHOP.TO"; "SU.TO"; "RY.TO"; "TD.TO"; "BNS.TO";
   "ENB.TO"; "CNQ.TO"; "CP.TO"; "CNR.TO"; "BAM.TO"].
Definition NASDAQ : list string :=
  ["AAPL"; "MSFT"; "AMZN"; "GOOG"; "NVDA";
   "TSLA"; "FB"; "INTC"; "AMD"; "NFLX"].
Definition NYSE : list string :=
  ["JNJ"; "PG"; "DIS"; "V"; "MA"; "KO"; "PFE"; "BAC"; "XOM"; "WMT"].

Definition stocks : list (string * list string) :=
  [("TSX", TSX); ("NASDAQ", NASDAQ); ("NYSE", NYSE)].

(* ================================================================= *)
(** ** Data *)

(** The value of [pos["status"]]: the strings ["open"] and ["closed"]. *)
Inductive pos_status : Type := open | closed.

(** The dictionary appended to [positions[ticker]]. *)
Record position : Type := mk_position {
  entry : float;
  shares : float;
  status : pos_status;
  stop_loss : float;
  take_profit : float;
  trailing_stop : float
}.

(** The entries of [st.session_state.alerts].  The script stores the
    rendered texts "New BUY position for T at $P", "T closed by Trailing
    Stop at $P" and "T closed by Take-Profit at $P"; the ticker and the
    price are kept here. *)
Inductive alert : Type :=
| NewBuy (ticker : string) (price : float)
| ClosedTrailingStop (ticker : string) (price : float)
| ClosedTakeProfit (ticker : string) (price : float).

(** [st.session_state.positions]: a dict from ticker to the list of its
    lots, in insertion order. *)
Definition book : Type := list (string * list position).

Record session_state : Type := mk_state {
  equity_curve : list float;
  capital : float;
  positions : book;
  alerts : list alert
}.

(** The state a fresh session starts with. *)
Definition initial_state : session_state :=
  {| equity_curve := [INITIAL_CAPITAL];
     capital := INITIAL_CAPITAL;
     positions := [];
     alerts := [] |}.

(** The last row of the frame, with the three indicator columns. *)
Record bar : Type := mk_bar {
  Close : float;
  EMA10 : float;
  EMA30 : float;
  RSI7 : float
}.

(** A row of [results]; the column ["DF"] only feeds the charts. *)
Record result_row : Type := mk_result {
  Stock : string;
  Signal : Z;
  Price : float;
  Score : float
}.

(** A row of [df_top_signals]. *)
Record top_signal : Type := mk_top_signal {
  top_Stock : string;
  Buy_Price : float;
  Sell_Price : float;
  top_Score : float
}.

(* ================================================================= *)
(** ** External collaborators *)

(** What [yf.download] gives for a ticker: an exception, or a frame, of
    which the engine reads the closing prices (possibly none). *)
Inductive download : Type :=
| Raised
| Frame (closes : list float).

Class MarketData : Type := { yf_download : string -> download }.

(** [ta.trend.ema_indicator(series, n)] and [ta.momentum.rsi(series, n)]. *)
Class Indicators : Type := {
  ema_indicator : list float -> nat -> list float;
  rsi : list float -> nat -> list float
}.

(** [DataFrame.sort_values(by="Score", ascending=False)], called with the
    default [kind]. *)
Class Sorter : Type := { sort_values : list result_row -> list result_row }.

(* ================================================================= *)
(** ** The signal function *)

(** Lines 43-51 of [generate_signal], on the last row. *)
Definition score_last (last : bar) : Z * float * float :=
  if (EMA10 last >? EMA30 last) && (RSI7 last <? Fin 70) then
    (1%Z, Close last,
     ((EMA10 last - EMA30 last) / EMA30 last) * Fin 100
     + (Fin 70 - RSI7 last))
  else if (EMA10 last <? EMA30 last) && (RSI7 last >? Fin 30) then
    ((-1)%Z, Close last,
     ((EMA30 last - EMA10 last) / EMA10 last) * Fin 100
     + (RSI7 last - Fin 30))
  else (0%Z, Close last, Fin 0).

(** [col.iloc[-1]] for a column aligned on the frame's index. *)
Definition iloc_last (df col : list float) : float :=
  nth (List.length df - 1)%nat col NaN.

(** [generate_signal(df)]; [None] is the [IndexError] of [df.iloc[-1]] on
    a frame without rows. *)
Definition generate_signal `{Indicators} (df : list float)
  : option (Z * float * float) :=
  match df with
  | [] => None
  | _ :: _ =>
      Some (score_last
              {| Close := iloc_last df df;
                 EMA10 := iloc_last df (ema_indicator df 10);
                 EMA30 := iloc_last df (ema_indicator df 30);
                 RSI7 := iloc_last df (rsi df 7) |})
  end.

(* ================================================================= *)
(** ** Fetching and scoring *)

(** One turn of the loop over [tickers]: the row appended to [results],
    if any. *)
Definition score_ticker `{MarketData} `{Indicators} (ticker : string)
  : option result_row :=
  match yf_download ticker with
  | Raised => None
  | Frame [] => None
  | Frame df =>
      match generate_signal df with
      | Some (signal, price, score) =>
          Some {| Stock := ticker; Signal := signal;
                  Price := price; Score := score |}
      | None => None
      end
  end.

Fixpoint fetch_results `{MarketData} `{Indicators} (tickers : list string)
  : list result_row :=
  match tickers with
  | [] => []
  | ticker :: rest =>
      match score_ticker ticker with
      | Some row => row :: fetch_results rest
      | None => fetch_results rest
      end
  end.

(** [exchange_results], in the order of [stocks]. *)
Definition exchange_results `{MarketData} `{Indicators}
  : list (string * list result_row) :=
  map (fun ex => (fst ex, fetch_results (snd ex))) stocks.

(* ================================================================= *)
(** ** Top buy signals *)

Definition is_buy (row : result_row) : bool := (Signal row =? 1)%Z.

(** [df[df["Signal"]==1].sort_values(by="Score", ascending=False).head(n)] *)
Definition top_buy_signals `{Sorter} (n : nat) (df : list result_row)
  : list result_row :=
  firstn n (sort_values (filter is_buy df)).

Definition buy_signals `{Sorter} (df : list result_row) : list result_row :=
  top_buy_signals TOP_N df.

Definition top_signal_of (row : result_row) : top_signal :=
  let buy_price := Price row in
  let sell_price := buy_price * (Fin 1 + TAKE_PROFIT / Fin 100) in
  {| top_Stock := Stock row;
     Buy_Price := round2 buy_price;
     Sell_Price := round2 sell_price;
     top_Score := round2 (Score row) |}.

Definition top_signals_list (buy : list result_row) : list top_signal :=
  map top_signal_of buy.

(* ================================================================= *)
(** ** Opening positions *)

(** [positions[ticker].append(pos)], creating the list when the ticker is
    not a key yet. *)
Fixpoint book_append (ticker : string) (pos : position) (b : book) : book :=
  match b with
  | [] => [(ticker, [pos])]
  | (t, lots) :: rest =>
      if String.eqb t ticker then (t, lots ++ [pos]) :: rest
      else (t, lots) :: book_append ticker pos rest
  end.

(** [positions.get(ticker, [])] *)
Fixpoint book_get (ticker : string) (b : book) : list position :=
  match b with
  | [] => []
  | (t, lots) :: rest =>
      if String.eqb t ticker then lots else book_get ticker rest
  end.

(** [df_top_signals["Score"].sum() if not df_top_signals.empty else 1] *)
Definition total_score_of (df_top_signals : list top_signal) : float :=
  match df_top_signals with
  | [] => Fin 1
  | _ :: _ => fsum (map top_Score df_top_signals)
  end.

Definition allocation_of (cap total_score : float) (row : top_signal)
  : float :=
  cap * (top_Score row / total_score).

Definition shares_of (cap total_score : float) (row : top_signal) : float :=
  allocation_of cap total_score row // Buy_Price row.

(** The dictionary literal of lines 105-112. *)
Definition new_position (price shares_ : float) : position :=
  {| entry := price;
     shares := shares_;
     status := open;
     stop_loss := price * (Fin 1 - STOP_LOSS / Fin 100);
     take_profit := price * (Fin 1 + TAKE_PROFIT / Fin 100);
     trailing_stop := price * (Fin 1 - STOP_LOSS / Fin 100) |}.

(** The body of the loop of lines 97-113. *)
Definition open_position (total_score : float) (st : session_state)
  (row : top_signal) : session_state :=
  let ticker := top_Stock row in
  let price := Buy_Price row in
  let score := top_Score row in
  let allocation := capital st * (score / total_score) in
  let shares_ := allocation // price in
  {| equity_curve := equity_curve st;
     capital := capital st;
     positions := book_append ticker (new_position price shares_)
                    (positions st);
     alerts := alerts st ++ [NewBuy ticker price] |}.

Definition open_positions (df_top_signals : list top_signal)
  (st : session_state) : session_state :=
  fold_left (open_position (total_score_of df_top_signals))
    df_top_signals st.

(** One tab: nothing for an empty frame, otherwise rank and open. *)
Definition process_exchange `{Sorter} (st : session_state)
  (df : list result_row) : session_state :=
  match df with
  | [] => st
  | _ :: _ => open_positions (top_signals_list (buy_signals df)) st
  end.

(* ================================================================= *)
(** ** Checking positions for stop, take-profit and trailing stop *)

(** Lines 145-151.  A frame built from no row has no ["Stock"] column:
    indexing it raises [KeyError]. *)
Inductive lookup : Type :=
| KeyError
| NoPrice
| PriceOf (df_price : float).

Fixpoint find_price (ticker : string) (frames : list (list result_row))
  : lookup :=
  match frames with
  | [] => NoPrice
  | [] :: _ => KeyError
  | exchange_df :: rest =>
      match find (fun row => String.eqb (Stock row) ticker) exchange_df with
      | Some row => PriceOf (Price row)
      | None => find_price ticker rest
      end
  end.

Definition set_trailing_stop (pos : position) (v : float) : position :=
  {| entry := entry pos; shares := shares pos; status := status pos;
     stop_loss := stop_loss pos; take_profit := take_profit pos;
     trailing_stop := v |}.

Definition set_status (pos : position) (s : pos_status) : position :=
  {| entry := entry pos; shares := shares pos; status := s;
     stop_loss := stop_loss pos; take_profit := take_profit pos;
     trailing_stop := trailing_stop pos |}.

(** What one turn of the loop works on: the lot, the cash and the alerts. *)
Definition lot_state : Type := (position * float * list alert)%type.

(** Lines 153-167, for one lot. *)
Definition check_position (ticker : string) (df_price : float)
  (s : lot_state) : lot_state :=
  let '(pos, cap, log) := s in
  match status pos with
  | open =>
      let pos :=
        if TRAILING_STOP then
          set_trailing_stop pos
            (py_max (trailing_stop pos)
               (df_price * (Fin 1 - STOP_LOSS / Fin 100)))
        else pos in
      if df_price <=? trailing_stop pos then
        (set_status pos closed,
         cap + shares pos * df_price,
         log ++ [ClosedTrailingStop ticker df_price])
      else if df_price >=? take_profit pos then
        (set_status pos closed,
         cap + shares pos * df_price,
         log ++ [ClosedTakeProfit ticker df_price])
      else (pos, cap, log)
  | closed => (pos, cap, log)
  end.

(** The loop of line 152 over the lots of one ticker. *)
Fixpoint check_lots (ticker : string) (df_price : float)
  (pos_list : list position) (cap : float) (log : list alert)
  : list position * float * list alert :=
  match pos_list with
  | [] => ([], cap, log)
  | pos :: rest =>
      let '(pos', cap1, log1) :=
        check_position ticker df_price (pos, cap, log) in
      let '(rest', cap2, log2) :=
        check_lots ticker df_price rest cap1 log1 in
      (pos' :: rest', cap2, log2)
  end.

(** The loop of lines 144-167.  The boolean tells whether a [KeyError]
    stopped it; the lots checked before that keep their updates. *)
Fixpoint check_book (frames : list (list result_row)) (b : book)
  (cap : float) (log : list alert) : book * float * list alert * bool :=
  match b with
  | [] => ([], cap, log, false)
  | (ticker, pos_list) :: rest =>
      match find_price ticker frames with
      | KeyError => (b, cap, log, true)
      | NoPrice =>
          let '(rest', cap', log', raised) :=
            check_book frames rest cap log in
          ((ticker, pos_list) :: rest', cap', log', raised)
      | PriceOf df_price =>
          let '(pos_list', cap1, log1) :=
            check_lots ticker df_price pos_list cap log in
          let '(rest', cap2, log2, raised) :=
            check_book frames rest cap1 log1 in
          ((ticker, pos_list') :: rest', cap2, log2, raised)
      end
  end.

Definition check_positions (frames : list (list result_row))
  (st : session_state) : session_state * bool :=
  let '(b, cap, log, raised) :=
    check_book frames (positions st) (capital st) (alerts st) in
  ({| equity_curve := equity_curve st; capital := cap;
      positions := b; alerts := log |}, raised).

(* ================================================================= *)
(** ** The equity curve *)

(** The marked value of the open lots of one ticker, added to [total]. *)
Definition add_open_value (df_price : float) (pos_list : list position)
  (total : float) : float :=
  fold_left
    (fun total pos =>
       match status pos with
       | open => total + shares pos * df_price
       | closed => total
       end)
    pos_list total.

(** Lines 170-180; [None] is the [KeyError] of the price lookup. *)
Fixpoint total_value (frames : list (list result_row)) (b : book)
  (total : float) : option float :=
  match b with
  | [] => Some total
  | (ticker, pos_list) :: rest =>
      match find_price ticker frames with
      | KeyError => None
      | NoPrice => total_value frames rest total
      | PriceOf df_price =>
          total_value frames rest (add_open_value df_price pos_list total)
      end
  end.

(* ================================================================= *)
(** ** One run of the script *)

(** How a run ends: normally, or stopped by an uncaught exception, with
    the session state as mutated so far. *)
Inductive run : Type :=
| Completed (st : session_state)
| Stopped (st : session_state).

Definition run_cycle `{MarketData} `{Indicators} `{Sorter}
  (st : session_state) : run :=
  let frames := map snd exchange_results in
  let st1 := fold_left process_exchange frames st in
  match check_positions frames st1 with
  | (st2, true) => Stopped st2
  | (st2, false) =>
      match total_value frames (positions st2) (capital st2) with
      | None => Stopped st2
      | Some v =>
          Completed {| equity_curve := equity_curve st2 ++ [v];
                       capital := capital st2;
                       positions := positions st2;
                       alerts := alerts st2 |}
      end
  end.

(** Successive checks of one lot, one per entry of [prices] (the price of
    its ticker in successive runs). *)
Definition check_many (ticker : string) (prices : list float)
  (s : lot_state) : lot_state :=
  fold_left (fun s df_price => check_position ticker df_price s) prices s.

(** The trailing stop a check leaves in an open lot. *)
Definition ratchet (pos : position) (df_price : float) : float :=
  py_max (trailing_stop pos) (df_price * (Fin 1 - STOP_LOSS / Fin 100)).

(** The two alerts that report a close. *)
Definition close_alert (mk : string -> float -> alert) : Prop :=
  mk = ClosedTrailingStop \/ mk = ClosedTakeProfit.

(** Scenario B as the design document tells it: a lot entered at 100.00
    starts with stop loss 99.50, take-profit 101.00 and trailing stop
    99.50; a check at 103.00 moves the trailing stop to 102.485, and the
    check at 102.00 that follows closes the lot by the trailing stop. *)
Definition scenario_B_as_documented : Prop :=
  forall ticker shares_ cap log,
    let pos := new_position (Fin 100) shares_ in
    stop_loss pos =f= Fin 99.5
    /\ take_profit pos =f= Fin 101
    /\ trailing_stop pos =f= Fin 99.5
    /\ let '(pos1, cap1, log1) :=
         check_position ticker (Fin 103) (pos, cap, log) in
       trailing_stop pos1 =f= Fin 102.485
       /\ let '(pos2, cap2, log2) :=
            check_position ticker (Fin 102) (pos1, cap1, log1) in
          status pos2 = closed
          /\ log2 = log ++ [ClosedTrailingStop ticker (Fin 102)]
          /\ cap2 = cap + shares_ * Fin 102.

(** The strength of a long signal, as line 47 computes it. *)
Definition long_strength (last : bar) : float :=
  ((EMA10 last - EMA30 last) / EMA30 last) * Fin 100 + (Fin 70 - RSI7 last).

Definition set_shares (pos : position) (v : float) : position :=
  {| entry := entry pos; shares := v; status := status pos;
     stop_loss := stop_loss pos; take_profit := take_profit pos;
     trailing_stop := trailing_stop pos |}.

(** A well-formed candidate: its strength is a number that is not
    negative and its reference price a positive number. *)
Definition candidate (row : top_signal) : Prop :=
  finite (top_Score row) = true
  /\ finite (Buy_Price row) = true
  /\ (0 <= Qof (top_Score row))%Q
  /\ (0 < Qof (Buy_Price row))%Q.

Definition Qsum (l : list Q) : Q := fold_right Qplus 0%Q l.

(* ================================================================= *)
(** ** What the collaborators guarantee *)

(** The order of a descending sort with [nan] placed last. *)
Definition score_geb (a b : float) : bool :=
  match a, b with
  | _, NaN => true
  | NaN, _ => false
  | _, _ => a >=? b
  end.

Definition score_ge (x y : result_row) : Prop :=
  score_geb (Score x) (Score y) = true.

(** [sort_values] returns the rows it was given, in descending order of
    score.  With the default [kind] nothing more is guaranteed: the order
    of rows with equal scores is the algorithm's business. *)
Definition sorts_descending (S : Sorter) : Prop :=
  forall l, Permutation (sort_values l) l
            /\ StronglySorted score_ge (sort_values l).

(** The indicator library leaves the values undefined until [n] bars have
    accumulated. *)
Definition leading_undefined (I : Indicators) : Prop :=
  forall series n i, (i + 1 < n)%nat ->
    nth i (ema_indicator series n) NaN = NaN.

(* ================================================================= *)
(** ** Instances of the collaborators *)

(** Insertion of a row into a descending list: before the rows of equal
    score when [ties_first], after them otherwise. *)
Fixpoint insert_desc (ties_first : bool) (x : result_row)
  (l : list result_row) : list result_row :=
  match l with
  | [] => [x]
  | y :: rest =>
      if (if ties_first then score_geb (Score x) (Score y)
          else negb (score_geb (Score y) (Score x)))
      then x :: l
      else y :: insert_desc ties_first x rest
  end.

Definition insertion_sort (ties_first : bool) (l : list result_row)
  : list result_row :=
  fold_right (insert_desc ties_first) [] l.

(** A stable descending sort: equal scores keep their input order. *)
Definition stable_sorter : Sorter := {| sort_values := insertion_sort true |}.

(** A descending sort that puts equal scores in reverse input order. *)
Definition reversing_sorter : Sorter :=
  {| sort_values := insertion_sort false |}.

(** Two rows tie when each has a score at least the other's. *)
Definition tieb (x y : result_row) : bool :=
  score_geb (Score x) (Score y) && score_geb (Score y) (Score x).

(** The ranker of the design document: the [n] long signals of greatest
    strength, in descending order, equal strengths in input order. *)
Definition spec_ranker (n : nat) (df : list result_row) : list result_row :=
  firstn n (insertion_sort true (filter is_buy df)).

(** The ranking as the design document states it: whatever descending
    sort the library runs, the code returns what [spec_ranker] returns. *)
Definition ranker_as_documented : Prop :=
  forall S : Sorter, sorts_descending S ->
    forall n df, top_buy_signals n df = spec_ranker n df.

(** The handling of a short history as the design document states it: a
    ticker whose frame has fewer than 30 bars has no row in the results. *)
Definition short_history_as_documented : Prop :=
  forall (M : MarketData) (I : Indicators),
    leading_undefined I ->
    forall tickers ticker df,
      yf_download ticker = Frame df ->
      (List.length df < 30)%nat ->
      forall row, In row (fetch_results tickers) -> Stock row <> ticker.

(** The first [k] entries replaced by [nan]. *)
Fixpoint mask (k : nat) (l : list float) : list float :=
  match k, l with
  | O, _ => l
  | _, [] => []
  | S k', _ :: rest => NaN :: mask k' rest
  end.

(** [ewm(adjust=False).mean()] continued from the previous mean. *)
Fixpoint ewm_from (alpha prev : float) (xs : list float) : list float :=
  match xs with
  | [] => []
  | x :: rest =>
      let y := (Fin 1 - alpha) * prev + alpha * x in
      y :: ewm_from alpha y rest
  end.

Definition ewm (alpha : float) (n : nat) (xs : list float) : list float :=
  match xs with
  | [] => []
  | x :: rest => mask (n - 1) (x :: ewm_from alpha x rest)
  end.

Definition of_nat (n : nat) : float := Fin (inject_Z (Z.of_nat n)).

(** The exponential moving average of span [n], undefined before [n]
    bars. *)
Definition ema_model (series : list float) (n : nat) : list float :=
  ewm (Fin 2 / (of_nat n + Fin 1)) n series.

(** The upward (or, with [down], downward) moves of a series; the first
    bar has none. *)
Fixpoint moves (down : bool) (prev : float) (xs : list float)
  : list float :=
  match xs with
  | [] => []
  | x :: rest =>
      let d := if down then prev - x else x - prev in
      (if d >? Fin 0 then d else Fin 0) :: moves down x rest
  end.

Definition rsi_value (up dn : float) : float :=
  match dn with
  | Fin q => if Qeq_bool q 0 then Fin 100
             else Fin 100 - Fin 100 / (Fin 1 + up / dn)
  | _ => Fin 100 - Fin 100 / (Fin 1 + up / dn)
  end.

(** The relative strength index over [n] bars. *)
Definition rsi_model (series : list float) (n : nat) : list float :=
  match series with
  | [] => []
  | x :: rest =>
      let alpha := Fin 1 / of_nat n in
      map (fun ud => rsi_value (fst ud) (snd ud))
        (combine (ewm alpha n (Fin 0 :: moves false x rest))
                 (ewm alpha n (Fin 0 :: moves true x rest)))
  end.

Definition indicator_model : Indicators :=
  {| ema_indicator := ema_model; rsi := rsi_model |}.

(** A market where only [ticker] trades, with the closing prices
    [closes]. *)
Definition single_market (ticker : string) (closes : list float)
  : MarketData :=
  {| yf_download := fun t =>
       if String.eqb t ticker then Frame closes else Frame [] |}.

(** A market given by a table of closing prices; a ticker that is not in
    the table has an empty frame. *)
Fixpoint quotes_get (ticker : string) (quotes : list (string * list float))
  : list float :=
  match quotes with
  | [] => []
  | (t, closes) :: rest =>
      if String.eqb t ticker then closes else quotes_get ticker rest
  end.

Definition table_market (quotes : list (string * list float)) : MarketData :=
  {| yf_download := fun t => Frame (quotes_get t quotes) |}.

(** Thirty-three bars: flat at 100, then a saw-tooth rise to 102.  Their
    last EMA10 is above the last EMA30 and the last RSI7 is about 63. *)
Definition rising_closes : list float :=
  repeat (Fin 100) 25
  ++ [Fin 101; Fin 100.5; Fin 101.5; Fin 101;
      Fin 102; Fin 101.5; Fin 102.5; Fin 102].

(** A market with a rising ticker on two exchanges and a ticker with two
    bars on the third. *)
Definition rising_market : MarketData :=
  table_market [("SHOP.TO", rising_closes); ("AAPL", rising_closes);
                ("JNJ", [Fin 50; Fin 51])].

(* ================================================================= *)
(** ** The chart markers *)

(** Row [i] of the frame with its indicator columns. *)
Definition bar_at `{Indicators} (df : list float) (i : nat) : bar :=
  {| Close := nth i df NaN;
     EMA10 := nth i (ema_indicator df 10) NaN;
     EMA30 := nth i (ema_indicator df 30) NaN;
     RSI7 := nth i (rsi df 7) NaN |}.

(** [df_c[(df_c["EMA10"] > df_c["EMA30"]) & (df_c["RSI7"] < 70)].index] *)
Definition buy_idx `{Indicators} (df : list float) : list nat :=
  filter
    (fun i => (EMA10 (bar_at df i) >? EMA30 (bar_at df i))
              && (RSI7 (bar_at df i) <? Fin 70))
    (seq 0 (List.length df)).

(** [df_c[(df_c["EMA10"] < df_c["EMA30"]) & (df_c["RSI7"] > 30)].index] *)
Definition sell_idx `{Indicators} (df : list float) : list nat :=
  filter
    (fun i => (EMA10 (bar_at df i) <? EMA30 (bar_at df i))
              && (RSI7 (bar_at df i) >? Fin 30))
    (seq 0 (List.length df)).

(** The horizontal lines of lines 134-138: three per open lot. *)
Inductive hline : Type :=
| SL (y : float)
| TP (y : float)
| Trailing_SL (y : float).

Definition chart_hlines (pos_list : list position) : list hline :=
  flat_map
    (fun pos =>
       match status pos with
       | open => [SL (stop_loss pos); TP (take_profit pos);
                  Trailing_SL (trailing_stop pos)]
       | closed => []
       end)
    pos_list.

(* ================================================================= *)
(** ** Measures and relations used by the properties *)

(** Whether the fetch loop gets a frame with rows for the ticker. *)
Definition has_rows `{MarketData} (ticker : string) : bool :=
  match yf_download ticker with
  | Frame (_ :: _) => true
  | _ => false
  end.

(** The number of lots of a book, and of open lots of a list. *)
Definition lot_count (b : book) : nat :=
  fold_right (fun entry_ n => (List.length (snd entry_) + n)%nat) 0%nat b.

Definition is_open (pos : position) : bool :=
  match status pos with open => true | closed => false end.

Definition open_count (pos_list : list position) : nat :=
  List.length (filter is_open pos_list).

(** What may change in a lot between two states of the book: nothing but
    its status and its trailing stop, and nothing at all once closed. *)
Definition lot_evolves (pos pos' : position) : Prop :=
  entry pos' = entry pos
  /\ shares pos' = shares pos
  /\ stop_loss pos' = stop_loss pos
  /\ take_profit pos' = take_profit pos
  /\ (status pos = closed -> pos' = pos).

(** The lot the loop of lines 97-113 opens for a row. *)
Definition lot_of_row (cap total_score : float) (row : top_signal)
  : position :=
  new_position (Buy_Price row) (shares_of cap total_score row).

Definition state_of_run (r : run) : session_state :=
  match r with Completed st => st | Stopped st => st end.

(* ================================================================= *)
(** ** The allocations of a run *)

(** The allocations line 101 computes in one tab, in row order. *)
Definition tab_allocations `{Sorter} (st : session_state)
  (df : list result_row) : list float :=
  match df with
  | [] => []
  | _ :: _ =>
      let df_top_signals := top_signals_list (buy_signals df) in
      map (allocation_of (capital st) (total_score_of df_top_signals))
        df_top_signals
  end.

(** The allocations computed by the tabs of one run, each tab starting
    from the state the tab before it left. *)
Fixpoint run_allocations `{Sorter} (frames : list (list result_row))
  (st : session_state) : list float :=
  match frames with
  | [] => []
  | df :: rest =>
      tab_allocations st df ++ run_allocations rest (process_exchange st df)
  end.

(** The bound of the design document on sizing: with cash [C >= 0] and,
    in every tab, well-formed candidates of strictly positive total
    strength, the allocations computed within a run sum to at most [C]. *)
Definition sizing_as_documented : Prop :=
  forall (M : MarketData) (I : Indicators) (S : Sorter),
    sorts_descending S ->
    forall (st : session_state) (C : Q),
      capital st = Fin C ->
      (0 <= C)%Q ->
      Forall
        (fun df =>
           Forall candidate (top_signals_list (buy_signals df))
           /\ exists T,
                total_score_of (top_signals_list (buy_signals df)) = Fin T
                /\ (0 < T)%Q)
        (map snd exchange_results) ->
      (fsum (run_allocations (map snd exchange_results) st) <=? Fin C) = true.

(* ================================================================= *)
(** * Properties *)

(** ** Facts about the floats *)

Section FloatFacts.

Local Open Scope Q_scope.

Lemma Qltb_lt (a b : Q) : Qltb a b = true <-> a < b.
Proof.
  unfold Qltb. rewrite negb_true_iff.
  destruct (Qle_bool b a) eqn:E.
  - apply Qle_bool_iff in E. split; [discriminate | intro; lra].
  - split; [intros _ | reflexivity].
    destruct (Qlt_le_dec a b) as [Hlt | Hle]; [exact Hlt |].
    apply Qle_bool_iff in Hle. congruence.
Qed.

Lemma Qltb_ge (a b : Q) : Qltb a b = false <-> b <= a.
Proof.
  unfold Qltb. rewrite negb_false_iff. apply Qle_bool_iff.
Qed.

Lemma Qeq_bool_false (a b : Q) : Qeq_bool a b = false <-> ~ a == b.
Proof.
  split.
  - intros E H. apply Qeq_bool_iff in H. congruence.
  - intro H. destruct (Qeq_bool a b) eqn:E; [| reflexivity].
    apply Qeq_bool_iff in E. contradiction.
Qed.

Lemma fltb_fleb (x y : float) : (x <? y)%F = true -> (x <=? y)%F = true.
Proof.
  destruct x, y; simpl; try congruence.
  rewrite Qltb_lt, Qle_bool_iff. intro; lra.
Qed.

Lemma fltb_asym (x y : float) : (x <? y)%F = true -> (y <? x)%F = false.
Proof.
  destruct x, y; simpl; try congruence.
  rewrite Qltb_lt, Qltb_ge. intro; lra.
Qed.

Lemma fleb_refl (x : float) : is_nan x = false -> (x <=? x)%F = true.
Proof.
  destruct x; simpl; try congruence.
  intros _. apply Qle_bool_iff. lra.
Qed.

Lemma fleb_trans (x y z : float) :
  (x <=? y)%F = true -> (y <=? z)%F = true -> (x <=? z)%F = true.
Proof.
  destruct x, y, z; simpl; try congruence.
  rewrite !Qle_bool_iff. intros; lra.
Qed.

Lemma fltb_not_nan_l (x y : float) : (x <? y)%F = true -> is_nan x = false.
Proof. destruct x, y; simpl; congruence. Qed.

(** [max] returns one of its arguments, never below the first. *)
Lemma py_max_ge (a b : float) :
  is_nan a = false ->
  (a <=? py_max a b)%F = true /\ is_nan (py_max a b) = false.
Proof.
  intro Ha. unfold py_max, fgtb.
  destruct (a <? b)%F eqn:E.
  - split; [apply fltb_fleb; exact E |].
    destruct a, b; simpl in *; congruence.
  - split; [apply fleb_refl; exact Ha | exact Ha].
Qed.

Lemma py_max_not_below (a b : float) : (py_max a b <? a)%F = false.
Proof.
  unfold py_max, fgtb.
  destruct (a <? b)%F eqn:E.
  - apply fltb_asym; exact E.
  - destruct a; simpl; try reflexivity. apply Qltb_ge. lra.
Qed.

End FloatFacts.

(* ================================================================= *)
(** ** One check of one lot *)

Lemma check_position_closed ticker df_price pos cap log :
  status pos = closed ->
  check_position ticker df_price (pos, cap, log) = (pos, cap, log).
Proof. intro H. unfold check_position. rewrite H. reflexivity. Qed.

Lemma check_many_closed ticker prices pos cap log :
  status pos = closed ->
  check_many ticker prices (pos, cap, log) = (pos, cap, log).
Proof.
  intro H. unfold check_many.
  induction prices as [| p ps IH]; cbn [fold_left]; [reflexivity |].
  rewrite check_position_closed by exact H. exact IH.
Qed.

Lemma check_many_cons ticker p ps s :
  check_many ticker (p :: ps) s
  = check_many ticker ps (check_position ticker p s).
Proof. reflexivity. Qed.

Lemma check_many_app ticker ps1 ps2 s :
  check_many ticker (ps1 ++ ps2) s
  = check_many ticker ps2 (check_many ticker ps1 s).
Proof. unfold check_many. apply fold_left_app. Qed.

(** The three ways a check of an open lot can end. *)
Lemma check_position_open ticker df_price pos cap log :
  status pos = open ->
  let pos1 := set_trailing_stop pos (ratchet pos df_price) in
  (check_position ticker df_price (pos, cap, log)
   = (set_status pos1 closed, cap + shares pos * df_price,
      log ++ [ClosedTrailingStop ticker df_price])
   /\ (df_price <=? ratchet pos df_price) = true)
  \/ (check_position ticker df_price (pos, cap, log)
      = (set_status pos1 closed, cap + shares pos * df_price,
         log ++ [ClosedTakeProfit ticker df_price])
      /\ (df_price <=? ratchet pos df_price) = false
      /\ (df_price >=? take_profit pos) = true)
  \/ (check_position ticker df_price (pos, cap, log) = (pos1, cap, log)
      /\ (df_price <=? ratchet pos df_price) = false
      /\ (df_price >=? take_profit pos) = false).
Proof.
  intro H. unfold check_position, ratchet. rewrite H. simpl.
  destruct (df_price <=? _) eqn:E1; [left; auto |].
  destruct (df_price >=? _) eqn:E2; [right; left; auto | right; right; auto].
Qed.

(* ================================================================= *)
(** ** Closing and settling *)

(** Successive checks of an open lot: either it is still open and nothing
    was credited, or exactly one check closed it. *)
Lemma check_many_open ticker prices : forall pos cap log,
  status pos = open ->
  (exists pos',
      check_many ticker prices (pos, cap, log) = (pos', cap, log)
      /\ status pos' = open /\ shares pos' = shares pos)
  \/ (exists before exit_price after mk pos_b,
         prices = before ++ exit_price :: after
         /\ close_alert mk
         /\ check_many ticker before (pos, cap, log) = (pos_b, cap, log)
         /\ status pos_b = open
         /\ shares pos_b = shares pos
         /\ check_many ticker (before ++ [exit_price]) (pos, cap, log)
            = (set_status
                 (set_trailing_stop pos_b (ratchet pos_b exit_price)) closed,
               cap + shares pos * exit_price,
               log ++ [mk ticker exit_price])
         /\ check_many ticker prices (pos, cap, log)
            = check_many ticker (before ++ [exit_price]) (pos, cap, log)).
Proof.
  induction prices as [| p ps IH]; intros pos cap log Hopen.
  - left. exists pos. auto.
  - change (check_many ticker (p :: ps) (pos, cap, log))
      with (check_many ticker ps (check_position ticker p (pos, cap, log))).
    destruct (check_position_open ticker p pos cap log Hopen)
      as [[E _] | [[E _] | [E _]]].
    + right. exists [], p, ps, ClosedTrailingStop, pos.
      rewrite E.
      rewrite (check_many_closed ticker ps
                 (set_status (set_trailing_stop pos (ratchet pos p)) closed)
                 _ _ eq_refl).
      change (check_many ticker ([] ++ [p]) (pos, cap, log))
        with (check_position ticker p (pos, cap, log)).
      rewrite E.
      repeat split; try reflexivity; try assumption.
      left; reflexivity.
    + right. exists [], p, ps, ClosedTakeProfit, pos.
      rewrite E.
      rewrite (check_many_closed ticker ps
                 (set_status (set_trailing_stop pos (ratchet pos p)) closed)
                 _ _ eq_refl).
      change (check_many ticker ([] ++ [p]) (pos, cap, log))
        with (check_position ticker p (pos, cap, log)).
      rewrite E.
      repeat split; try reflexivity; try assumption.
      right; reflexivity.
    + rewrite E.
      set (pos1 := set_trailing_stop pos (ratchet pos p)) in *.
      assert (H1 : status pos1 = open) by exact Hopen.
      destruct (IH pos1 cap log H1)
        as [[pos' [E' [Hs Hsh]]]
           | [before [x [after [mk [pos_b
               [Hp [Hmk [Eb [Hb [Hsh [Ex Eall]]]]]]]]]]]].
      * left. exists pos'. auto.
      * right. exists (p :: before), x, after, mk, pos_b.
        rewrite <- !app_comm_cons, !check_many_cons, E.
        repeat split; try assumption.
        rewrite Hp. reflexivity.
Qed.

(** A pass of the loop over lots that are all closed changes nothing. *)
Lemma check_lots_closed ticker df_price pos_list cap log :
  Forall (fun pos => status pos = closed) pos_list ->
  check_lots ticker df_price pos_list cap log = (pos_list, cap, log).
Proof.
  induction 1 as [| pos rest Hpos _ IH]; cbn [check_lots]; [reflexivity |].
  rewrite check_position_closed by exact Hpos.
  rewrite IH. reflexivity.
Qed.

(** A pass of the loop keeps the lots in place: as many after as before. *)
Lemma check_lots_length ticker df_price pos_list : forall cap log,
  List.length (fst (fst (check_lots ticker df_price pos_list cap log)))
  = List.length pos_list.
Proof.
  induction pos_list as [| pos rest IH]; intros cap log; [reflexivity |].
  cbn [check_lots].
  destruct (check_position ticker df_price (pos, cap, log))
    as [[pos' cap1] log1].
  specialize (IH cap1 log1).
  destruct (check_lots ticker df_price rest cap1 log1) as [[rest' c2] l2].
  simpl in *. rewrite IH. reflexivity.
Qed.

(** C2.  Close-and-settle happens exactly once per lot.  Whatever the
    sequence of prices a lot is checked against: a lot that was closed
    already is returned as it is, with the cash and the alerts untouched;
    an open lot either stays open with nothing credited, or is closed by
    exactly one of the checks, at the price [exit_price] of that check:
    the cash grows by [shares * exit_price], once, in the step that sets
    the status to closed, one alert reports it, and the checks that follow
    change neither the lot nor the cash nor the alerts. *)
Theorem settle_exactly_once ticker prices pos cap log :
  let '(pos', cap', log') := check_many ticker prices (pos, cap, log) in
  (status pos = closed /\ pos' = pos /\ cap' = cap /\ log' = log)
  \/ (status pos = open /\ status pos' = open /\ cap' = cap /\ log' = log)
  \/ (status pos = open /\ status pos' = closed
      /\ exists before exit_price after mk,
           prices = before ++ exit_price :: after
           /\ close_alert mk
           /\ status (fst (fst (check_many ticker before (pos, cap, log))))
              = open
           /\ cap' = cap + shares pos * exit_price
           /\ log' = log ++ [mk ticker exit_price]
           /\ shares pos' = shares pos
           /\ (pos', cap', log')
              = check_many ticker (before ++ [exit_price]) (pos, cap, log)).
Proof.
  destruct (status pos) eqn:Hst.
  - destruct (check_many_open ticker prices pos cap log Hst)
      as [[pos' [E [Hs _]]]
         | [before [x [after [mk [pos_b
             [Hp [Hmk [Eb [Hb [Hsh [Ex Eall]]]]]]]]]]]].
    + rewrite E. right; left. auto.
    + rewrite Eall, Ex. right; right.
      split; [reflexivity |]. split; [reflexivity |].
      exists before, x, after, mk. rewrite Eb.
      repeat split; auto.
  - rewrite check_many_closed by exact Hst. left. auto.
Qed.

(* ================================================================= *)
(** ** The trailing stop *)

(** What one check does to the fields of a lot. *)
Lemma check_position_fields ticker df_price pos cap log :
  let pos1 := fst (fst (check_position ticker df_price (pos, cap, log))) in
  entry pos1 = entry pos
  /\ shares pos1 = shares pos
  /\ stop_loss pos1 = stop_loss pos
  /\ take_profit pos1 = take_profit pos
  /\ trailing_stop pos1
     = match status pos with
       | open => ratchet pos df_price
       | closed => trailing_stop pos
       end.
Proof.
  unfold check_position, ratchet.
  destruct (status pos); simpl; [| auto].
  destruct (df_price <=? _); simpl; [auto |].
  destruct (df_price >=? _); simpl; auto.
Qed.

Lemma check_position_trailing_ge ticker df_price pos cap log :
  is_nan (trailing_stop pos) = false ->
  let pos1 := fst (fst (check_position ticker df_price (pos, cap, log))) in
  (trailing_stop pos <=? trailing_stop pos1) = true
  /\ is_nan (trailing_stop pos1) = false.
Proof.
  intros Hn pos1.
  destruct (check_position_fields ticker df_price pos cap log)
    as (_ & _ & _ & _ & Ht).
  fold pos1 in Ht. rewrite Ht.
  destruct (status pos).
  - apply py_max_ge. exact Hn.
  - split; [apply fleb_refl; exact Hn | exact Hn].
Qed.

(** C3.  Across any sequence of checks of a lot whose trailing stop is a
    number, the trailing stop never decreases, the stop loss (like the
    entry price and the take-profit level) stays what it was at entry, and
    each check of an open lot sets the trailing stop to
    [max(trailing_stop, df_price * (1 - STOP_LOSS/100))]. *)
Theorem trailing_stop_monotone ticker prices pos cap log :
  is_nan (trailing_stop pos) = false ->
  let pos' := fst (fst (check_many ticker prices (pos, cap, log))) in
  (trailing_stop pos <=? trailing_stop pos') = true
  /\ stop_loss pos' = stop_loss pos
  /\ entry pos' = entry pos
  /\ take_profit pos' = take_profit pos
  /\ forall df_price,
       trailing_stop
         (fst (fst (check_position ticker df_price (pos, cap, log))))
       = match status pos with
         | open =>
             py_max (trailing_stop pos)
               (df_price * (Fin 1 - STOP_LOSS / Fin 100))
         | closed => trailing_stop pos
         end.
Proof.
  intros Hn pos'. subst pos'.
  split; [| split; [| split; [| split]]].
  5: { intro df_price.
       apply (check_position_fields ticker df_price pos cap log). }
  all: revert pos cap log Hn;
    induction prices as [| p ps IH]; intros pos cap log Hn;
    [ simpl; try reflexivity; apply fleb_refl; exact Hn | ];
    rewrite check_many_cons;
    destruct (check_position ticker p (pos, cap, log))
      as [[pos1 cap1] log1] eqn:E;
    pose proof (check_position_fields ticker p pos cap log) as Hf;
    pose proof (check_position_trailing_ge ticker p pos cap log Hn) as Hg;
    rewrite E in Hf, Hg; simpl in Hf, Hg;
    destruct Hf as (He & _ & Hs & Htp & _); destruct Hg as [Hle Hn1];
    specialize (IH pos1 cap1 log1 Hn1).
  - eapply fleb_trans; [exact Hle | exact IH].
  - rewrite IH. exact Hs.
  - rewrite IH. exact He.
  - rewrite IH. exact Htp.
Qed.

Lemma trailing_stop_monotone_witness :
  let pos := new_position (Fin 100) (Fin 10) in
  is_nan (trailing_stop pos) = false
  /\ (trailing_stop pos
      <=? trailing_stop
            (fst (fst (check_many "AAPL" [Fin 100.5; Fin 100.2; Fin 100]
                         (pos, Fin 0, []))))) = true.
Proof.
  split; [reflexivity |].
  apply (trailing_stop_monotone "AAPL" [Fin 100.5; Fin 100.2; Fin 100]
           (new_position (Fin 100) (Fin 10)) (Fin 0) []).
  reflexivity.
Defined.

(* ================================================================= *)
(** ** The order of the two exit tests, and scenario B *)

(** The lot of scenario B is closed by the take-profit test of the check
    at 103.00; the check at 102.00 finds it closed. *)
Lemma scenario_B_not_as_documented : ~ scenario_B_as_documented.
Proof.
  intro H.
  specialize (H "AAPL" (Fin 10) (Fin 0) []).
  cbv zeta in H.
  destruct H as (_ & _ & _ & H).
  vm_compute in H.
  destruct H as (_ & _ & H & _).
  discriminate H.
Qed.

(** C4, amended.  The trailing-stop test comes first: an open lot whose
    price is at or below the ratcheted trailing stop is closed with the
    trailing-stop alert, whatever the take-profit test would say.  In
    scenario B a lot entered at 100.00 starts with stop loss 99.50,
    take-profit 101.00 and trailing stop 99.50; the check at 103.00 moves
    the trailing stop to 102.485 and, since 103.00 is above it and at or
    above the take-profit level 101.00, closes the lot by take-profit at
    103.00, crediting [shares * 103.00]; the check at 102.00 that follows
    changes nothing. *)
Theorem scenario_B_take_profit ticker shares_ cap log :
  let pos := new_position (Fin 100) shares_ in
  (stop_loss pos =f= Fin 99.5
   /\ take_profit pos =f= Fin 101
   /\ trailing_stop pos =f= Fin 99.5)
  /\ (let '(pos1, cap1, log1) :=
        check_position ticker (Fin 103) (pos, cap, log) in
      trailing_stop pos1 =f= Fin 102.485
      /\ status pos1 = closed
      /\ cap1 = cap + shares_ * Fin 103
      /\ log1 = log ++ [ClosedTakeProfit ticker (Fin 103)]
      /\ check_position ticker (Fin 102) (pos1, cap1, log1)
         = (pos1, cap1, log1))
  /\ (forall lot df_price,
        status lot = open ->
        (df_price <=? ratchet lot df_price) = true ->
        check_position ticker df_price (lot, cap, log)
        = (set_status (set_trailing_stop lot (ratchet lot df_price)) closed,
           cap + shares lot * df_price,
           log ++ [ClosedTrailingStop ticker df_price])).
Proof.
  split; [| split].
  - vm_compute. repeat split; reflexivity.
  - vm_compute. repeat split; reflexivity.
  - intros lot df_price Hopen Hle.
    destruct (check_position_open ticker df_price lot cap log Hopen)
      as [[E _] | [[_ [E _]] | [_ [E _]]]]; [exact E | congruence ..].
Qed.

(* ================================================================= *)
(** ** The scorer *)

Lemma score_last_long last :
  (EMA10 last >? EMA30 last) = true ->
  (RSI7 last <? Fin 70) = true ->
  score_last last = (1%Z, Close last, long_strength last).
Proof.
  intros H1 H2. unfold score_last. rewrite H1, H2. reflexivity.
Qed.

(** C5.  For every last row whose indicators are numbers, with a
    positive EMA30 (an average of prices), EMA10 > EMA30 and RSI7 < 70, the
    scorer returns the signal 1 (long) with the strength
    [(EMA10 - EMA30) / EMA30 * 100 + (70 - RSI7)], and this strength is
    strictly positive; EMA10 = 105, EMA30 = 100, RSI7 = 50 give the signal
    1 with strength 25. *)
Theorem long_signal_strength (price : float) (es el r : Q) :
  (0 < el)%Q -> (el < es)%Q -> (r < 70)%Q ->
  (score_last {| Close := price; EMA10 := Fin es;
                 EMA30 := Fin el; RSI7 := Fin r |}
   = (1%Z, price, Fin ((es - el) / el * 100 + (70 - r))%Q)
   /\ (0 < (es - el) / el * 100 + (70 - r))%Q)
  /\ (let '(signal, price', score) :=
        score_last {| Close := price; EMA10 := Fin 105;
                      EMA30 := Fin 100; RSI7 := Fin 50 |} in
      signal = 1%Z /\ price' = price /\ score =f= Fin 25).
Proof.
  intros Hl Hs Hr. split; [split |].
  - rewrite score_last_long.
    + unfold long_strength. simpl.
      assert (E : Qeq_bool el 0 = false)
        by (apply Qeq_bool_false; intro; lra).
      rewrite E. reflexivity.
    + simpl. apply Qltb_lt. exact Hs.
    + simpl. apply Qltb_lt. exact Hr.
  - assert (0 < (es - el) / el)%Q by (apply Qlt_shift_div_l; lra).
    lra.
  - vm_compute. repeat split; reflexivity.
Qed.

(** Scenario A: EMA10 = 105, EMA30 = 100, RSI7 = 50. *)
Lemma long_signal_strength_witness :
  score_last {| Close := Fin 105; EMA10 := Fin 105;
                EMA30 := Fin 100; RSI7 := Fin 50 |}
  = (1%Z, Fin 105, Fin ((105 - 100) / 100 * 100 + (70 - 50))%Q)
  /\ (0 < (105 - 100) / 100 * 100 + (70 - 50))%Q.
Proof.
  apply (long_signal_strength (Fin 105) 105 100 50); reflexivity.
Defined.

(* ================================================================= *)
(** ** Opening positions *)

Lemma book_get_append_same ticker pos b :
  book_get ticker (book_append ticker pos b) = book_get ticker b ++ [pos].
Proof.
  induction b as [| [t lots] rest IH]; simpl.
  - rewrite String.eqb_refl. reflexivity.
  - destruct (String.eqb t ticker) eqn:E; simpl; rewrite E;
      [reflexivity | exact IH].
Qed.

Lemma book_get_append_other ticker other pos b :
  other <> ticker ->
  book_get other (book_append ticker pos b) = book_get other b.
Proof.
  intro Hne.
  induction b as [| [t lots] rest IH]; simpl.
  - destruct (String.eqb ticker other) eqn:E; [| reflexivity].
    apply String.eqb_eq in E. congruence.
  - destruct (String.eqb t ticker) eqn:E; simpl.
    + apply String.eqb_eq in E. subst t.
      destruct (String.eqb ticker other) eqn:E'; [| reflexivity].
      apply String.eqb_eq in E'. congruence.
    + destruct (String.eqb t other); [reflexivity | exact IH].
Qed.

(** The loop over the top signals: the cash is read, never written; one
    lot and one alert are appended per row. *)
Lemma open_positions_fold total rows : forall st,
  fold_left (open_position total) rows st
  = {| equity_curve := equity_curve st;
       capital := capital st;
       positions :=
         fold_left
           (fun b row =>
              book_append (top_Stock row)
                (new_position (Buy_Price row)
                   (shares_of (capital st) total row)) b)
           rows (positions st);
       alerts :=
         alerts st
         ++ map (fun row => NewBuy (top_Stock row) (Buy_Price row)) rows |}.
Proof.
  induction rows as [| row rows IH]; intro st; simpl.
  - rewrite app_nil_r. destruct st; reflexivity.
  - rewrite IH. simpl. rewrite <- app_assoc. reflexivity.
Qed.

Lemma open_positions_capital rows st :
  capital (open_positions rows st) = capital st.
Proof.
  unfold open_positions. rewrite open_positions_fold. reflexivity.
Qed.

Lemma process_exchange_capital (S : Sorter) st df :
  capital (process_exchange st df) = capital st.
Proof.
  destruct df; simpl; [reflexivity | apply open_positions_capital].
Qed.

(** C1, as the code has it.  Opening never debits the cash: the loop over
    the top signals returns the cash it was given, for every list of
    signals and every state, and so does a whole tab.  From the initial
    state, one signal at 100.00 with score 10 opens a lot of 1000 shares
    and leaves the cash at 100000, where a debit of [shares * price] would
    leave 0; the take-profit close at 101.00 then credits 101000 on top:
    the cash is 201000.  A whole run from the initial state on a market
    with one long signal on each of two exchanges opens two lots of 980
    shares at 102.00, each sized against the full 100000, leaves the cash
    at 100000 and records the equity 299920. *)
Theorem opening_never_debits :
  (forall rows st, capital (open_positions rows st) = capital st)
  /\ (forall (S : Sorter) st df,
         capital (process_exchange st df) = capital st)
  /\ (let row := {| top_Stock := "AAPL"; Buy_Price := Fin 100;
                    Sell_Price := Fin 101; top_Score := Fin 10 |} in
      let st := open_positions [row] initial_state in
      exists lot,
        positions st = [("AAPL", [lot])]
        /\ status lot = open
        /\ entry lot = Fin 100
        /\ shares lot =f= Fin 1000
        /\ capital st = Fin 100000
        /\ ~ capital st =f= Fin 100000 - shares lot * entry lot
        /\ let '(_, cap, _) :=
             check_position "AAPL" (Fin 101) (lot, capital st, alerts st) in
           cap =f= Fin 201000)
  /\ (exists st lot1 lot2 v,
        @run_cycle rising_market indicator_model stable_sorter initial_state
        = Completed st
        /\ capital st = Fin 100000
        /\ positions st = [("SHOP.TO", [lot1]); ("AAPL", [lot2])]
        /\ (status lot1 = open /\ entry lot1 =f= Fin 102
            /\ shares lot1 =f= Fin 980)
        /\ (status lot2 = open /\ entry lot2 =f= Fin 102
            /\ shares lot2 =f= Fin 980)
        /\ equity_curve st = [Fin 100000; v]
        /\ v =f= Fin 299920).
Proof.
  split; [exact open_positions_capital |].
  split; [exact process_exchange_capital |].
  split.
  - eexists. split; [vm_compute; reflexivity |].
    vm_compute. repeat split; try reflexivity.
    intro H. discriminate H.
  - do 4 eexists.
    split; [vm_compute; reflexivity |].
    vm_compute. repeat split.
Qed.

(* ================================================================= *)
(** ** Sizing *)

Section Sizing.

Local Open Scope Q_scope.

Lemma fold_left_Qplus (l : list Q) : forall a,
  fold_left Qplus l a == a + Qsum l.
Proof.
  induction l as [| x l IH]; intro a; simpl.
  - lra.
  - rewrite IH. lra.
Qed.

Lemma fold_left_fadd_finite (l : list float) : forall a,
  Forall (fun x => finite x = true) l ->
  fold_left fadd l (Fin a) = Fin (fold_left Qplus (map Qof l) a).
Proof.
  induction l as [| x l IH]; intros a Hl; simpl; [reflexivity |].
  inversion Hl as [| ? ? Hx Hl']; subst.
  destruct x; try discriminate. simpl. apply IH. exact Hl'.
Qed.

Lemma filter_not_nan_finite (l : list float) :
  Forall (fun x => finite x = true) l ->
  filter (fun x => negb (is_nan x)) l = l.
Proof.
  induction 1 as [| x l Hx _ IH]; simpl; [reflexivity |].
  destruct x; try discriminate. simpl. rewrite IH. reflexivity.
Qed.

Lemma fsum_finite (l : list float) :
  Forall (fun x => finite x = true) l ->
  exists t, fsum l = Fin t /\ t == Qsum (map Qof l).
Proof.
  intro Hl. unfold fsum.
  rewrite filter_not_nan_finite by exact Hl.
  rewrite fold_left_fadd_finite by exact Hl.
  eexists. split; [reflexivity |].
  rewrite fold_left_Qplus. lra.
Qed.

(** The allocation and the share count of one candidate. *)
Lemma sizing_of_candidate (C T : Q) row :
  candidate row -> 0 <= C -> 0 < T ->
  let a := C * (Qof (top_Score row) / T) in
  allocation_of (Fin C) (Fin T) row = Fin a
  /\ shares_of (Fin C) (Fin T) row
     = Fin (inject_Z (Qfloor (a / Qof (Buy_Price row))))
  /\ 0 <= a
  /\ (0 <= Qfloor (a / Qof (Buy_Price row)))%Z
  /\ inject_Z (Qfloor (a / Qof (Buy_Price row))) * Qof (Buy_Price row) <= a.
Proof.
  intros (Hfs & Hfp & Hs & Hp) HC HT a.
  unfold shares_of, allocation_of.
  destruct (top_Score row) as [s | | |]; try discriminate.
  destruct (Buy_Price row) as [p | | |]; try discriminate.
  cbn [Qof] in *.
  assert (ET : Qeq_bool T 0 = false) by (apply Qeq_bool_false; intro; lra).
  assert (EP : Qeq_bool p 0 = false) by (apply Qeq_bool_false; intro; lra).
  assert (Hq : 0 <= s / T) by (apply Qle_shift_div_l; lra).
  assert (Ha : 0 <= a) by (subst a; nra).
  assert (Hd : 0 <= a / p) by (apply Qle_shift_div_l; lra).
  assert (E1 : (Fin C * (Fin s / Fin T))%F = Fin a).
  { unfold fdiv. rewrite ET. reflexivity. }
  rewrite E1. split; [reflexivity |].
  split; [unfold ffloordiv; rewrite EP; reflexivity |].
  split; [exact Ha |].
  split.
  - change 0%Z with (Qfloor 0). apply Qfloor_resp_le. exact Hd.
  - pose proof (Qfloor_le (a / p)) as Hfl.
    apply (Qmult_le_compat_r _ _ p) in Hfl; [| lra].
    assert (Ea : a / p * p == a) by (field; lra).
    rewrite Ea in Hfl. exact Hfl.
Qed.

End Sizing.

(** C6, amended.  For candidates that are well formed (each strength a
    number that is not negative, each reference price a positive number),
    a strictly positive total strength and a cash amount [C >= 0]: the
    loop opens one lot per candidate; the allocation of a candidate is
    [C * (strength / total)] with the sum of the strengths as total, and
    its share count is the floor division of its allocation by its price;
    every share count is a whole number, at least 0, and the cost
    [shares * price] of a lot is at most its allocation. *)
Theorem sizing_allocations rows st (C T : Q) :
  capital st = Fin C ->
  (0 <= C)%Q ->
  Forall candidate rows ->
  total_score_of rows = Fin T ->
  (0 < T)%Q ->
  positions (open_positions rows st)
  = fold_left
      (fun b row =>
         book_append (top_Stock row)
           (new_position (Buy_Price row)
              (shares_of (capital st) (total_score_of rows) row)) b)
      rows (positions st)
  /\ (rows <> [] -> total_score_of rows = fsum (map top_Score rows))
  /\ Forall
       (fun row =>
          let allocation :=
            allocation_of (capital st) (total_score_of rows) row in
          let shares_ := shares_of (capital st) (total_score_of rows) row in
          allocation = Fin C * (top_Score row / total_score_of rows)
          /\ shares_ = allocation // Buy_Price row
          /\ (exists n, (0 <= n)%Z /\ shares_ = Fin (inject_Z n))
          /\ (Fin 0 <=? shares_) = true
          /\ (shares_ * Buy_Price row <=? allocation) = true)
       rows.
Proof.
  intros Hcap HC Hrows Htot HT.
  split; [| split].
  - unfold open_positions. rewrite open_positions_fold. reflexivity.
  - intro Hne. destruct rows; [congruence | reflexivity].
  - rewrite Hcap, Htot.
    rewrite Forall_forall in Hrows |- *. intros row Hin. cbv zeta.
    destruct (sizing_of_candidate C T row (Hrows row Hin) HC HT)
      as (Ha & Hs & Ha0 & Hn & Hle).
    destruct (Hrows row Hin) as (_ & Hfp & _ & _).
    split; [reflexivity |]. split; [reflexivity |].
    rewrite Hs, Ha.
    split; [eexists; split; [exact Hn | reflexivity] |].
    split.
    + cbn [fleb]. apply Qle_bool_iff.
      change 0%Q with (inject_Z 0). rewrite <- Zle_Qle. exact Hn.
    + destruct (Buy_Price row) as [p | | |]; try discriminate.
      cbn [fmul fleb Qof] in *. apply Qle_bool_iff. exact Hle.
Qed.

(** Scenario C: 100000 of cash and two candidates of strengths 30 and 10
    at the prices 100 and 300 get 750 and 83 shares. *)
Lemma sizing_allocations_witness :
  let rows :=
    [ {| top_Stock := "AAPL"; Buy_Price := Fin 100;
         Sell_Price := Fin 101; top_Score := Fin 30 |};
      {| top_Stock := "MSFT"; Buy_Price := Fin 300;
         Sell_Price := Fin 303; top_Score := Fin 10 |} ] in
  Forall candidate rows
  /\ total_score_of rows = Fin 40
  /\ Forall
       (fun row =>
          (Fin 0
           <=? shares_of (capital initial_state) (total_score_of rows) row)
          = true
          /\ (shares_of (capital initial_state) (total_score_of rows) row
              * Buy_Price row
              <=? allocation_of (capital initial_state)
                    (total_score_of rows) row) = true)
       rows.
Proof.
  intro rows.
  assert (Hc : Forall candidate rows).
  { repeat constructor; simpl; lra. }
  split; [exact Hc |]. split; [reflexivity |].
  destruct (sizing_allocations rows initial_state 100000 40 eq_refl
              ltac:(lra) Hc eq_refl ltac:(lra)) as (_ & _ & Hall).
  eapply Forall_impl; [| exact Hall]. cbv beta zeta.
  intros row (_ & _ & _ & H0 & Hle). split; assumption.
Defined.

(* ================================================================= *)
(** ** A total strength of zero *)

Lemma fmul_nan_r (x : float) : x * NaN = NaN.
Proof. destruct x; reflexivity. Qed.

Lemma ffloordiv_nan_l (x : float) : NaN // x = NaN.
Proof. destruct x; reflexivity. Qed.

Lemma Qsum_zeros (l : list float) :
  Forall (fun x => exists q, x = Fin q /\ (q == 0)%Q) l ->
  Forall (fun x => finite x = true) l /\ (Qsum (map Qof l) == 0)%Q.
Proof.
  induction 1 as [| x l (q & -> & Hq) _ [IH1 IH2]]; simpl.
  - split; [constructor | reflexivity].
  - split; [constructor; [reflexivity | exact IH1] |].
    rewrite Hq, IH2. reflexivity.
Qed.

(** C9, as the code has it.  The guard of [total_score] covers the empty
    frame only.  For every non-empty list of top signals whose scores are
    all zero, the total is zero, the quotient [score / total_score] is
    [0/0 = nan], and every lot is opened all the same, with [nan] shares.
    A long signal with EMA10 = 100.00001, EMA30 = 100 and RSI7 = 69.997
    has the score 0.00301, shown as 0.00: its tab opens a lot of [nan]
    shares and appends the alert; the close of that lot turns the cash
    into [nan]. *)
Theorem zero_total_divides_by_zero :
  (forall rows cap,
      rows <> [] ->
      Forall (fun row => exists q, top_Score row = Fin q /\ (q == 0)%Q)
        rows ->
      total_score_of rows =f= Fin 0
      /\ Forall
           (fun row =>
              top_Score row / total_score_of rows = NaN
              /\ shares_of cap (total_score_of rows) row = NaN)
           rows
      /\ forall st,
           alerts (open_positions rows st)
           = alerts st
             ++ map (fun row => NewBuy (top_Stock row) (Buy_Price row)) rows)
  /\ (let '(signal, price, score) :=
        score_last {| Close := Fin 100; EMA10 := Fin 100.00001;
                      EMA30 := Fin 100; RSI7 := Fin 69.997 |} in
      let df := [ {| Stock := "AAPL"; Signal := signal;
                     Price := price; Score := score |} ] in
      let st := @process_exchange stable_sorter initial_state df in
      signal = 1%Z
      /\ score =f= Fin 0.00301
      /\ exists lot,
           positions st = [("AAPL", [lot])]
           /\ status lot = open
           /\ shares lot = NaN
           /\ alerts st = [NewBuy "AAPL" (entry lot)]
           /\ let '(lot', cap, _) :=
                check_position "AAPL" (Fin 99)
                  (lot, capital st, alerts st) in
              status lot' = closed /\ cap = NaN).
Proof.
  split.
  - intros rows cap Hne Hz.
    assert (Hz' : Forall (fun x => exists q, x = Fin q /\ (q == 0)%Q)
                    (map top_Score rows)).
    { rewrite Forall_forall in Hz |- *. intros x Hx.
      apply in_map_iff in Hx. destruct Hx as (row & <- & Hin).
      apply Hz. exact Hin. }
    destruct (Qsum_zeros _ Hz') as [Hfin Hsum].
    destruct (fsum_finite _ Hfin) as (t & Et & Es).
    assert (Etot : total_score_of rows = Fin t).
    { destruct rows; [congruence | exact Et]. }
    assert (Ht : (t == 0)%Q) by (rewrite Es; exact Hsum).
    rewrite Etot. split; [exact Ht | split].
    + eapply Forall_impl; [| exact Hz]. cbv beta.
      intros row (q & Eq & Hq).
      assert (E : top_Score row / Fin t = NaN).
      { rewrite Eq. unfold fdiv.
        apply Qeq_bool_iff in Ht. apply Qeq_bool_iff in Hq.
        rewrite Ht, Hq. reflexivity. }
      split; [exact E |].
      unfold shares_of, allocation_of.
      rewrite E, fmul_nan_r, ffloordiv_nan_l. reflexivity.
    + intro st. unfold open_positions. rewrite open_positions_fold.
      reflexivity.
  - vm_compute. split; [reflexivity |]. split; [reflexivity |].
    eexists. repeat split.
Qed.

(* ================================================================= *)
(** ** Lots of zero shares *)

Lemma Qfloor_unit (x : Q) : (0 <= x)%Q -> (x < 1)%Q -> Qfloor x = 0%Z.
Proof.
  intros H0 H1.
  pose proof (Qfloor_le x) as Hle.
  pose proof (Qlt_floor x) as Hlt.
  assert (Ha : (inject_Z (Qfloor x) < inject_Z 1)%Q)
    by (change (inject_Z 1) with 1%Q; lra).
  assert (Hb : (inject_Z 0 < inject_Z (Qfloor x + 1))%Q)
    by (change (inject_Z 0) with 0%Q; lra).
  rewrite <- Zlt_Qlt in Ha, Hb. lia.
Qed.

(** The checks look at the status, the trailing stop and the take-profit
    level of a lot, never at its shares: a lot is checked the same way
    whatever its share count, and the same alerts are appended. *)
Lemma check_position_set_shares ticker df_price pos v cap cap2 log :
  let '(pos1, _, log1) := check_position ticker df_price (pos, cap, log) in
  let '(pos2, _, log2) :=
    check_position ticker df_price (set_shares pos v, cap2, log) in
  pos2 = set_shares pos1 v /\ log2 = log1.
Proof.
  unfold check_position. simpl.
  destruct (status pos); simpl; [| auto].
  destruct (df_price <=? _); simpl; [auto |].
  destruct (df_price >=? _); simpl; auto.
Qed.

Lemma check_many_set_shares ticker prices v : forall pos cap cap2 log,
  let '(pos1, _, log1) := check_many ticker prices (pos, cap, log) in
  let '(pos2, _, log2) :=
    check_many ticker prices (set_shares pos v, cap2, log) in
  pos2 = set_shares pos1 v /\ log2 = log1.
Proof.
  induction prices as [| p ps IH]; intros pos cap cap2 log.
  - simpl. auto.
  - rewrite !check_many_cons.
    pose proof (check_position_set_shares ticker p pos v cap cap2 log) as H.
    destruct (check_position ticker p (pos, cap, log))
      as [[pos1 cap1] log1].
    destruct (check_position ticker p (set_shares pos v, cap2, log))
      as [[pos2 cap2'] log2].
    destruct H as [-> ->].
    apply IH.
Qed.

(** Closing a lot of zero shares at a price that is a number leaves the
    cash at its value. *)
Lemma check_many_zero_shares ticker (prices : list Q) : forall pos c log,
  shares pos = Fin 0 ->
  exists c',
    snd (fst (check_many ticker (map Fin prices) (pos, Fin c, log))) = Fin c'
    /\ (c' == c)%Q.
Proof.
  induction prices as [| p ps IH]; intros pos c log Hsh.
  - exists c. split; reflexivity.
  - cbn [map]. rewrite check_many_cons.
    destruct (status pos) eqn:Hst.
    + destruct (check_position_open ticker (Fin p) pos (Fin c) log Hst)
        as [[E _] | [[E _] | [E _]]]; rewrite E.
      * rewrite check_many_closed by reflexivity.
        rewrite Hsh. simpl. eexists; split; [reflexivity | lra].
      * rewrite check_many_closed by reflexivity.
        rewrite Hsh. simpl. eexists; split; [reflexivity | lra].
      * apply IH. exact Hsh.
    + rewrite check_position_closed by exact Hst.
      apply IH. exact Hsh.
Qed.

(** C10.  When the allocation of a well-formed candidate is smaller than
    its reference price (cash [C >= 0], total strength [T > 0]), the loop
    body opens a lot of 0 shares all the same: the lot is open, it is
    appended to the lots of its ticker, and the alert is appended.  Later
    checks treat it as any other lot (same status, same trailing stop,
    same alerts as a lot of any other share count), and whenever they
    close it the cash keeps its value: the credit is 0. *)
Theorem zero_share_lot st row (C T : Q) :
  capital st = Fin C ->
  candidate row ->
  (0 <= C)%Q ->
  (0 < T)%Q ->
  (C * (Qof (top_Score row) / T) < Qof (Buy_Price row))%Q ->
  let st' := open_position (Fin T) st row in
  let lot := new_position (Buy_Price row) (Fin 0) in
  book_get (top_Stock row) (positions st')
  = book_get (top_Stock row) (positions st) ++ [lot]
  /\ status lot = open
  /\ shares lot = Fin 0
  /\ alerts st' = alerts st ++ [NewBuy (top_Stock row) (Buy_Price row)]
  /\ capital st' = capital st
  /\ (forall prices v cap cap2 log,
        let '(other', _, log1) :=
          check_many (top_Stock row) prices
            (new_position (Buy_Price row) v, cap, log) in
        let '(lot', _, log2) :=
          check_many (top_Stock row) prices (lot, cap2, log) in
        lot' = set_shares other' (Fin 0) /\ log2 = log1)
  /\ (forall (prices : list Q) (c : Q) log,
        exists c',
          snd (fst (check_many (top_Stock row) (map Fin prices)
                      (lot, Fin c, log))) = Fin c'
          /\ (c' == c)%Q).
Proof.
  intros Hcap Hrow HC HT Hlt st' lot.
  destruct (sizing_of_candidate C T row Hrow HC HT)
    as (_ & Hs & Ha & _ & _).
  destruct Hrow as (_ & _ & _ & Hp).
  assert (Hz : Qfloor (C * (Qof (top_Score row) / T) / Qof (Buy_Price row))
               = 0%Z).
  { apply Qfloor_unit.
    - apply Qle_shift_div_l; lra.
    - apply Qlt_shift_div_r; lra. }
  rewrite Hz in Hs.
  assert (Hst' : st' = {| equity_curve := equity_curve st;
                          capital := capital st;
                          positions := book_append (top_Stock row) lot
                                         (positions st);
                          alerts := alerts st
                                    ++ [NewBuy (top_Stock row)
                                          (Buy_Price row)] |}).
  { subst st' lot. unfold open_position.
    unfold shares_of, allocation_of in Hs. rewrite Hcap, Hs. reflexivity. }
  rewrite Hst'. cbn [positions alerts capital].
  split; [apply book_get_append_same |].
  split; [reflexivity |]. split; [reflexivity |].
  split; [reflexivity |]. split; [reflexivity |].
  split.
  - intros prices v cap cap2 log.
    apply (check_many_set_shares (top_Stock row) prices (Fin 0)
             (new_position (Buy_Price row) v) cap cap2 log).
  - intros prices c log.
    apply check_many_zero_shares. reflexivity.
Qed.

Lemma zero_share_lot_witness :
  let st := {| equity_curve := [Fin 100]; capital := Fin 100;
               positions := []; alerts := [] |} in
  let row := {| top_Stock := "AAPL"; Buy_Price := Fin 150;
                Sell_Price := Fin 151.5; top_Score := Fin 10 |} in
  candidate row
  /\ (100 * (Qof (top_Score row) / 10) < Qof (Buy_Price row))%Q
  /\ book_get "AAPL" (positions (open_position (Fin 10) st row))
     = [new_position (Fin 150) (Fin 0)].
Proof.
  intros st row.
  assert (Hc : candidate row) by (repeat split; simpl; lra).
  assert (Hlt : (100 * (Qof (top_Score row) / 10) < Qof (Buy_Price row))%Q)
    by (vm_compute; reflexivity).
  split; [exact Hc |]. split; [exact Hlt |].
  apply (zero_share_lot st row 100 10 eq_refl Hc ltac:(lra) ltac:(lra) Hlt).
Defined.

(* ================================================================= *)
(** ** Ranking *)

Lemma score_geb_total (a b : float) :
  score_geb a b = true \/ score_geb b a = true.
Proof.
  destruct a as [x | | |], b as [y | | |]; simpl; auto.
  unfold fgeb; simpl.
  destruct (Qlt_le_dec x y) as [H | H].
  - right. apply Qle_bool_iff. lra.
  - left. apply Qle_bool_iff. exact H.
Qed.

Lemma score_geb_trans (a b c : float) :
  score_geb a b = true -> score_geb b c = true -> score_geb a c = true.
Proof.
  destruct a as [x | | |], b as [y | | |], c as [z | | |];
    simpl; try congruence.
  unfold fgeb; simpl. rewrite !Qle_bool_iff. intros; lra.
Qed.

Lemma score_ge_trans x y z : score_ge x y -> score_ge y z -> score_ge x z.
Proof. unfold score_ge. apply score_geb_trans. Qed.

(** What the test of [insert_desc] decides, whichever way ties go. *)
Lemma insert_test (ties_first : bool) x y :
  (if ties_first then score_geb (Score x) (Score y)
   else negb (score_geb (Score y) (Score x))) = true -> score_ge x y.
Proof.
  unfold score_ge. destruct ties_first; [auto |].
  rewrite negb_true_iff. intro H.
  destruct (score_geb_total (Score x) (Score y)); congruence.
Qed.

Lemma insert_test_false (ties_first : bool) x y :
  (if ties_first then score_geb (Score x) (Score y)
   else negb (score_geb (Score y) (Score x))) = false -> score_ge y x.
Proof.
  unfold score_ge. destruct ties_first.
  - intro H. destruct (score_geb_total (Score x) (Score y)); congruence.
  - rewrite negb_false_iff. auto.
Qed.

Lemma insert_desc_perm ties_first x l :
  Permutation (insert_desc ties_first x l) (x :: l).
Proof.
  induction l as [| y l IH]; simpl; [reflexivity |].
  destruct (if ties_first then _ else _); [reflexivity |].
  rewrite IH. apply perm_swap.
Qed.

Lemma insert_desc_sorted ties_first x l :
  StronglySorted score_ge l ->
  StronglySorted score_ge (insert_desc ties_first x l).
Proof.
  induction 1 as [| y l Hl IH Hy]; simpl.
  - constructor; constructor.
  - destruct (if ties_first then _ else _) eqn:E.
    + apply insert_test in E.
      constructor; [constructor; assumption |].
      constructor; [exact E |].
      eapply Forall_impl; [| exact Hy].
      intros z Hz. eapply score_ge_trans; eassumption.
    + apply insert_test_false in E.
      constructor; [exact IH |].
      eapply Permutation_Forall.
      * symmetry. apply insert_desc_perm.
      * constructor; assumption.
Qed.

Lemma insertion_sort_descending ties_first :
  sorts_descending {| sort_values := insertion_sort ties_first |}.
Proof.
  intro l. simpl. split.
  - induction l as [| x l IH]; simpl; [reflexivity |].
    rewrite insert_desc_perm. constructor. exact IH.
  - induction l as [| x l IH]; simpl; [constructor |].
    apply insert_desc_sorted. exact IH.
Qed.

Lemma StronglySorted_app {A : Type} (R : A -> A -> Prop) (l1 l2 : list A) :
  StronglySorted R (l1 ++ l2) ->
  StronglySorted R l1
  /\ Forall (fun y => Forall (fun x => R x y) l1) l2.
Proof.
  induction l1 as [| a l1 IH]; simpl; intro H.
  - split; [constructor |].
    apply Forall_forall. intros; constructor.
  - inversion H as [| ? ? Hs Ha]; subst.
    destruct (IH Hs) as [IH1 IH2].
    apply Forall_app in Ha. destruct Ha as [Ha1 Ha2].
    split; [constructor; assumption |].
    rewrite Forall_forall in IH2, Ha2 |- *.
    intros y Hy. constructor; auto.
Qed.

(** The rows the ranker returns are buy rows of the frame. *)
Lemma top_buy_signals_In (S : Sorter) (n : nat) (df : list result_row) row :
  sorts_descending S ->
  In row (top_buy_signals n df) -> In row df /\ Signal row = 1%Z.
Proof.
  intros HS Hin. unfold top_buy_signals in Hin.
  destruct (HS (filter is_buy df)) as [Hperm _].
  assert (Hin' : In row (sort_values (filter is_buy df))).
  { rewrite <- (firstn_skipn n (sort_values (filter is_buy df))).
    apply in_or_app. left. exact Hin. }
  apply (Permutation_in _ Hperm) in Hin'.
  apply filter_In in Hin'. destruct Hin' as [Hdf Hb].
  split; [exact Hdf | apply Z.eqb_eq; exact Hb].
Qed.

(** C7, amended.  Whatever descending sort the library runs, for every
    frame and every count [n] the ranker returns [min n m] rows, [m] being
    the number of long signals of the frame: never more than [n], all of
    them when [m <= n], nothing added.  The rows returned are long signals
    of the frame, in descending order of score, and each of them has a
    score at least that of every long signal left out.  The order of rows
    of equal score is not fixed. *)
Theorem ranker_top_n (S : Sorter) (n : nat) (df : list result_row) :
  sorts_descending S ->
  let out := top_buy_signals n df in
  List.length out = Nat.min n (List.length (filter is_buy df))
  /\ Forall (fun row => In row df /\ Signal row = 1%Z) out
  /\ StronglySorted score_ge out
  /\ exists rest,
       Permutation (out ++ rest) (filter is_buy df)
       /\ Forall (fun y => Forall (fun x => score_ge x y) out) rest.
Proof.
  intros HS out.
  split; [| split].
  - subst out. unfold top_buy_signals.
    destruct (HS (filter is_buy df)) as [Hperm _].
    rewrite length_firstn, (Permutation_length Hperm). reflexivity.
  - apply Forall_forall. intros row Hin.
    apply (top_buy_signals_In S n df row HS Hin).
  - subst out. unfold top_buy_signals.
    destruct (HS (filter is_buy df)) as [Hperm Hsorted].
    set (sorted := sort_values (filter is_buy df)) in *.
    rewrite <- (firstn_skipn n sorted) in Hsorted.
    apply StronglySorted_app in Hsorted.
    destruct Hsorted as [Hout Hrest].
    split; [exact Hout |].
    exists (skipn n sorted).
    split; [rewrite firstn_skipn; exact Hperm | exact Hrest].
Qed.

(** The stable sort keeps the rows that tie with a given row in their
    input order, so [spec_ranker] breaks ties by input order. *)
Lemma insert_desc_ties_first z x l :
  filter (tieb z) (insert_desc true x l) = filter (tieb z) (x :: l).
Proof.
  induction l as [| y l IH]; [reflexivity |].
  cbn [insert_desc].
  destruct (score_geb (Score x) (Score y)) eqn:E; [reflexivity |].
  cbn [filter] in *. rewrite IH.
  destruct (tieb z y) eqn:Ey, (tieb z x) eqn:Ex; try reflexivity.
  unfold tieb in Ey, Ex.
  apply andb_true_iff in Ey. apply andb_true_iff in Ex.
  destruct Ey as [Hzy _], Ex as [_ Hxz].
  rewrite (score_geb_trans _ _ _ Hxz Hzy) in E. discriminate E.
Qed.

Lemma insertion_sort_stable z l :
  filter (tieb z) (insertion_sort true l) = filter (tieb z) l.
Proof.
  induction l as [| x l IH]; [reflexivity |].
  cbn [insertion_sort fold_right].
  fold (insertion_sort true l).
  rewrite insert_desc_ties_first. cbn [filter]. rewrite IH. reflexivity.
Qed.

(** With a stable sort the code ranks as the design document says. *)
Remark stable_ranker_is_spec n df :
  @top_buy_signals stable_sorter n df = spec_ranker n df.
Proof. reflexivity. Qed.

Lemma ranker_top_n_witness :
  let df := [ {| Stock := "AAPL"; Signal := 1; Price := Fin 100;
                 Score := Fin 5 |};
              {| Stock := "MSFT"; Signal := 1; Price := Fin 300;
                 Score := Fin 7 |};
              {| Stock := "AMZN"; Signal := (-1); Price := Fin 90;
                 Score := Fin 9 |};
              {| Stock := "GOOG"; Signal := 1; Price := Fin 120;
                 Score := Fin 5 |} ] in
  sorts_descending stable_sorter
  /\ List.length (@top_buy_signals stable_sorter 2 df) = 2%nat
  /\ StronglySorted score_ge (@top_buy_signals stable_sorter 2 df).
Proof.
  intro df.
  split; [exact (insertion_sort_descending true) |].
  destruct (ranker_top_n stable_sorter 2 df (insertion_sort_descending true))
    as (Hlen & _ & Hsorted & _).
  split; [exact Hlen | exact Hsorted].
Defined.

(** Two long signals of equal score, AAPL before MSFT: a descending sort
    that is not stable ranks MSFT first. *)
Lemma ranker_ties_not_by_input_order : ~ ranker_as_documented.
Proof.
  intro H.
  specialize (H reversing_sorter (insertion_sort_descending false) 5%nat
                [ {| Stock := "AAPL"; Signal := 1; Price := Fin 100;
                     Score := Fin 5 |};
                  {| Stock := "MSFT"; Signal := 1; Price := Fin 300;
                     Score := Fin 5 |} ]).
  vm_compute in H. discriminate H.
Qed.

(* ================================================================= *)
(** ** The allocations of a run *)

(** The cycle of [rising_market]: the tabs of TSX and NASDAQ each
    allocate the whole cash of 100000 to their one signal, 200000 in all. *)
Lemma sizing_exceeds_cash_over_a_run : ~ sizing_as_documented.
Proof.
  intro H.
  specialize (H rising_market indicator_model stable_sorter
                (insertion_sort_descending true) initial_state 100000
                eq_refl ltac:(lra)).
  remember (map snd (@exchange_results rising_market indicator_model))
    as frames eqn:Ef.
  vm_compute in Ef. subst frames.
  match type of H with
  | Forall ?P ?l -> _ => assert (Hp : Forall P l)
  end.
  { repeat (apply Forall_cons || apply Forall_nil); cbv beta;
      (split;
       [ match goal with
         | |- Forall candidate ?rows =>
             let r := eval vm_compute in rows in
             change (Forall candidate r)
         end;
         repeat (apply Forall_cons || apply Forall_nil);
         unfold candidate; cbn [top_Score Buy_Price finite Qof];
         repeat split; try reflexivity; intro Hc; discriminate Hc
       | eexists; split; [vm_compute; reflexivity | reflexivity] ]). }
  specialize (H Hp). vm_compute in H. discriminate H.
Qed.

(* ================================================================= *)
(** ** Short histories *)

Lemma fltb_nan_r (x : float) : (x <? NaN) = false.
Proof. destruct x; reflexivity. Qed.

(** An undefined indicator makes both tests fail. *)
Lemma score_last_undefined last :
  is_nan (EMA10 last) || is_nan (EMA30 last) || is_nan (RSI7 last) = true ->
  score_last last = (0%Z, Close last, Fin 0).
Proof.
  unfold score_last, fgtb.
  destruct (EMA10 last) as [a | | |], (EMA30 last) as [b | | |],
    (RSI7 last) as [c | | |]; simpl; try discriminate;
    intros _; rewrite ?andb_false_r; try reflexivity;
    repeat (match goal with
            | |- context [if ?b then _ else _] => destruct b
            end; try reflexivity).
Qed.

Lemma generate_signal_short (I : Indicators) (df : list float) :
  leading_undefined I ->
  df <> [] ->
  (List.length df < 30)%nat ->
  generate_signal df = Some (0%Z, iloc_last df df, Fin 0).
Proof.
  intros HI Hne Hlen.
  destruct df as [| x df']; [congruence |].
  unfold generate_signal.
  rewrite score_last_undefined; [reflexivity |].
  cbn [EMA10 EMA30 RSI7].
  assert (E : iloc_last (x :: df') (ema_indicator (x :: df') 30) = NaN).
  { unfold iloc_last. apply HI. cbn [List.length] in *. lia. }
  rewrite E. cbn [is_nan]. rewrite orb_true_r. reflexivity.
Qed.

Lemma fetch_results_In (M : MarketData) (I : Indicators) tickers row :
  In row (fetch_results tickers)
  <-> exists ticker, In ticker tickers /\ score_ticker ticker = Some row.
Proof.
  induction tickers as [| t ts IH]; simpl.
  - split; [contradiction | intros (? & [] & _)].
  - destruct (score_ticker t) as [r |] eqn:E; simpl; rewrite IH; split.
    + intros [-> | (t' & Hin & Ht')]; [exists t | exists t']; auto.
    + intros (t' & [-> | Hin] & Ht'); [left; congruence | right; eauto].
    + intros (t' & Hin & Ht'). eauto.
    + intros (t' & [-> | Hin] & Ht'); [congruence | eauto].
Qed.

Lemma score_ticker_stock (M : MarketData) (I : Indicators) ticker row :
  score_ticker ticker = Some row -> Stock row = ticker.
Proof.
  unfold score_ticker.
  destruct (yf_download ticker) as [| [| x df]]; try discriminate.
  destruct (generate_signal (x :: df)) as [[[sg pr] sc] |]; try discriminate.
  intro H. injection H as <-. reflexivity.
Qed.

(** C8, amended.  A ticker whose frame has at least one bar and fewer
    than 30 is scored all the same: its last EMA30 is undefined, both tests
    of the scorer fail, and the row appended to the results carries the
    signal 0 and the score 0, with the last close as price.  Every row of
    the results for that ticker is this one; none of them is among the top
    buy signals, whatever the count and the descending sort. *)
Theorem short_history_scored_neutral (M : MarketData) (I : Indicators)
  (tickers : list string) (ticker : string) (df : list float) :
  leading_undefined I ->
  In ticker tickers ->
  yf_download ticker = Frame df ->
  df <> [] ->
  (List.length df < 30)%nat ->
  let row := {| Stock := ticker; Signal := 0;
                Price := iloc_last df df; Score := Fin 0 |} in
  In row (fetch_results tickers)
  /\ (forall r, In r (fetch_results tickers) -> Stock r = ticker -> r = row)
  /\ (forall (S : Sorter) n r,
         sorts_descending S ->
         In r (top_buy_signals n (fetch_results tickers)) ->
         Stock r <> ticker).
Proof.
  intros HI Hin Hdl Hne Hlen row.
  assert (Hrow : score_ticker ticker = Some row).
  { unfold score_ticker. rewrite Hdl.
    destruct df as [| x df']; [congruence |].
    rewrite (generate_signal_short I (x :: df') HI Hne Hlen). reflexivity. }
  assert (Honly : forall r, In r (fetch_results tickers) ->
                            Stock r = ticker -> r = row).
  { intros r Hr Hs. apply fetch_results_In in Hr.
    destruct Hr as (t & _ & Ht).
    pose proof (score_ticker_stock M I t r Ht) as Hst.
    rewrite Hs in Hst. subst t. congruence. }
  split; [| split].
  - apply fetch_results_In. exists ticker. auto.
  - exact Honly.
  - intros S n r HS Hr Hs.
    destruct (top_buy_signals_In S n (fetch_results tickers) r HS Hr)
      as [Hr' Hsig].
    rewrite (Honly r Hr' Hs) in Hsig. discriminate Hsig.
Qed.

Lemma nth_mask (k i : nat) : forall l,
  (i < k)%nat -> nth i (mask k l) NaN = NaN.
Proof.
  revert i. induction k as [| k IH]; intros i l Hi; [lia |].
  destruct l as [| x l]; simpl.
  - destruct i; reflexivity.
  - destruct i as [| i]; [reflexivity |]. apply IH. lia.
Qed.

Lemma indicator_model_leading_undefined : leading_undefined indicator_model.
Proof.
  intros series n i Hi. simpl. unfold ema_model, ewm.
  destruct series as [| x rest].
  - destruct i; reflexivity.
  - apply nth_mask. lia.
Qed.

Lemma short_history_scored_neutral_witness :
  let M := single_market "AAPL" [Fin 100; Fin 101; Fin 102] in
  let row := {| Stock := "AAPL"; Signal := 0;
                Price := Fin 102; Score := Fin 0 |} in
  leading_undefined indicator_model
  /\ In "AAPL" NASDAQ
  /\ @yf_download M "AAPL" = Frame [Fin 100; Fin 101; Fin 102]
  /\ In row (@fetch_results M indicator_model NASDAQ).
Proof.
  intros M row.
  split; [exact indicator_model_leading_undefined |].
  split; [left; reflexivity |].
  split; [reflexivity |].
  apply (short_history_scored_neutral M indicator_model NASDAQ "AAPL"
           [Fin 100; Fin 101; Fin 102]
           indicator_model_leading_undefined
           (or_introl eq_refl) eq_refl
           ltac:(discriminate) ltac:(simpl; lia)).
Defined.

(** Three bars for AAPL: the results hold a row for it, with the signal 0
    and the score 0. *)
Lemma short_history_is_scored : ~ short_history_as_documented.
Proof.
  intro H.
  apply (H (single_market "AAPL" [Fin 100; Fin 101; Fin 102])
           indicator_model indicator_model_leading_undefined
           ["AAPL"] "AAPL" [Fin 100; Fin 101; Fin 102] eq_refl
           ltac:(simpl; lia)
           {| Stock := "AAPL"; Signal := 0;
              Price := Fin 102; Score := Fin 0 |}).
  - vm_compute. left. reflexivity.
  - reflexivity.
Qed.

(* ================================================================= *)
(** * Further properties of the script *)

(** ** The scorer: short and neutral cases *)

(** X1.  The short rule of lines 48-50: when the indicators are numbers
    with 0 < EMA10 < EMA30 and RSI7 > 30, the signal is -1, the price is
    the last close and the strength is
    [(EMA30 - EMA10) / EMA10 * 100 + (RSI7 - 30)], strictly positive. *)
Theorem short_signal_strength (price : float) (es el r : Q) :
  (0 < es)%Q -> (es < el)%Q -> (30 < r)%Q ->
  score_last {| Close := price; EMA10 := Fin es;
                EMA30 := Fin el; RSI7 := Fin r |}
  = ((-1)%Z, price, Fin ((el - es) / es * 100 + (r - 30))%Q)
  /\ (0 < (el - es) / es * 100 + (r - 30))%Q.
Proof.
  intros Hs Hl Hr. split.
  - unfold score_last, fgtb. cbn [EMA10 EMA30 RSI7 Close fltb].
    assert (E1 : Qltb el es = false) by (apply Qltb_ge; lra).
    assert (E2 : Qltb es el = true) by (apply Qltb_lt; exact Hl).
    assert (E3 : Qltb 30 r = true) by (apply Qltb_lt; exact Hr).
    rewrite E1, E2, E3. cbn [andb].
    assert (E : Qeq_bool es 0 = false)
      by (apply Qeq_bool_false; intro; lra).
    unfold fsub, fopp, fadd, fdiv, fmul. rewrite E. reflexivity.
  - assert (0 < (el - es) / es)%Q by (apply Qlt_shift_div_l; lra).
    lra.
Qed.

Lemma short_signal_strength_witness :
  score_last {| Close := Fin 95; EMA10 := Fin 95;
                EMA30 := Fin 100; RSI7 := Fin 40 |}
  = ((-1)%Z, Fin 95, Fin ((100 - 95) / 95 * 100 + (40 - 30))%Q).
Proof.
  apply (short_signal_strength (Fin 95) 95 100 40); reflexivity.
Defined.

(** X2.  No signal at the edges: with indicators that are numbers, an
    overbought reading (RSI7 >= 70) without a falling cross
    (EMA10 >= EMA30), an oversold reading (RSI7 <= 30) without a rising
    cross (EMA10 <= EMA30), or equal averages give the signal 0 with the
    score 0; the thresholds 70 and 30 themselves are excluded from the
    long and the short rule. *)
Theorem neutral_at_the_edges (price : float) (es el r : Q) :
  ((el <= es)%Q /\ (70 <= r)%Q)
  \/ ((es <= el)%Q /\ (r <= 30)%Q)
  \/ (es == el)%Q ->
  score_last {| Close := price; EMA10 := Fin es;
                EMA30 := Fin el; RSI7 := Fin r |}
  = (0%Z, price, Fin 0).
Proof.
  intro H. unfold score_last, fgtb. cbn [EMA10 EMA30 RSI7 Close fltb].
  destruct H as [[H1 H2] | [[H1 H2] | H]].
  - assert (E1 : Qltb r 70 = false) by (apply Qltb_ge; exact H2).
    assert (E2 : Qltb es el = false) by (apply Qltb_ge; exact H1).
    rewrite E1, E2, andb_false_r. reflexivity.
  - assert (E1 : Qltb el es = false) by (apply Qltb_ge; exact H1).
    assert (E2 : Qltb 30 r = false) by (apply Qltb_ge; exact H2).
    rewrite E1, E2, andb_false_r. reflexivity.
  - assert (E1 : Qltb el es = false) by (apply Qltb_ge; lra).
    assert (E2 : Qltb es el = false) by (apply Qltb_ge; lra).
    rewrite E1, E2. reflexivity.
Qed.

Lemma neutral_at_the_edges_witness :
  score_last {| Close := Fin 105; EMA10 := Fin 105;
                EMA30 := Fin 100; RSI7 := Fin 70 |}
  = (0%Z, Fin 105, Fin 0).
Proof.
  apply (neutral_at_the_edges (Fin 105) 105 100 70).
  left. split; discriminate.
Defined.

(* ================================================================= *)
(** ** The fetch loop *)

Lemma score_ticker_has_rows (M : MarketData) (I : Indicators) ticker :
  (has_rows ticker = true ->
   exists row, score_ticker ticker = Some row /\ Stock row = ticker)
  /\ (has_rows ticker = false -> score_ticker ticker = None).
Proof.
  unfold has_rows, score_ticker.
  destruct (yf_download ticker) as [| [| x df]].
  - split; [discriminate | reflexivity].
  - split; [discriminate | reflexivity].
  - split; [| discriminate]. intros _.
    cbn [generate_signal].
    destruct (score_last _) as [[sg pr] sc].
    eexists. split; reflexivity.
Qed.

(** X3.  The fetch loop of lines 57-67 appends one row for each ticker
    whose download gives a frame with rows, in the order of the tickers,
    and nothing for a ticker whose download raised or gave an empty frame:
    the stocks of the results are exactly those tickers. *)
Theorem fetch_results_stocks (M : MarketData) (I : Indicators)
  (tickers : list string) :
  map Stock (fetch_results tickers) = filter has_rows tickers.
Proof.
  induction tickers as [| t ts IH]; [reflexivity |].
  cbn [fetch_results filter].
  destruct (score_ticker_has_rows M I t) as [Hyes Hno].
  destruct (has_rows t).
  - destruct (Hyes eq_refl) as (row & E & Hs).
    rewrite E. cbn [map]. rewrite Hs, IH. reflexivity.
  - rewrite (Hno eq_refl). exact IH.
Qed.

(* ================================================================= *)
(** ** The chart markers *)

Lemma In_seq_last (n : nat) : (0 < n)%nat -> In (n - 1)%nat (seq 0 n).
Proof. intro H. apply in_seq. lia. Qed.

Lemma fltb_fgtb_exclusive (x y : float) :
  (x >? y) = true -> (x <? y) = false.
Proof. unfold fgtb. apply fltb_asym. Qed.

(** X4.  The markers of lines 127-128 agree with the signal: no bar
    carries both a Buy and a Sell marker, and for a frame with rows the
    last bar carries the Buy marker exactly when [generate_signal] returns
    the signal 1, and the Sell marker exactly when it returns -1. *)
Theorem markers_agree_with_signal (I : Indicators) (df : list float) :
  (forall i, ~ (In i (buy_idx df) /\ In i (sell_idx df)))
  /\ forall signal price score,
       generate_signal df = Some (signal, price, score) ->
       (signal = 1%Z <-> In (List.length df - 1)%nat (buy_idx df))
       /\ (signal = (-1)%Z <-> In (List.length df - 1)%nat (sell_idx df)).
Proof.
  split.
  - intros i [Hb Hs]. unfold buy_idx in Hb. unfold sell_idx in Hs.
    apply filter_In in Hb. apply filter_In in Hs.
    destruct Hb as [_ Hb], Hs as [_ Hs].
    apply andb_true_iff in Hb. apply andb_true_iff in Hs.
    destruct Hb as [Hb _], Hs as [Hs _].
    apply fltb_fgtb_exclusive in Hb. congruence.
  - intros signal price score Hg.
    destruct df as [| x df']; [discriminate |].
    assert (Hlast : In (List.length (x :: df') - 1)%nat
                      (seq 0 (List.length (x :: df'))))
      by (apply In_seq_last; simpl; lia).
    unfold generate_signal in Hg. injection Hg as Hg.
    unfold buy_idx, sell_idx. rewrite !filter_In.
    unfold bar_at. cbn [EMA10 EMA30 RSI7].
    unfold score_last, iloc_last in Hg. cbn [EMA10 EMA30 RSI7 Close] in Hg.
    set (n := (List.length (x :: df') - 1)%nat) in *.
    destruct ((nth n (ema_indicator (x :: df') 10) NaN
               >? nth n (ema_indicator (x :: df') 30) NaN)
              && (nth n (rsi (x :: df') 7) NaN <? Fin 70)) eqn:Eb.
    + injection Hg as <- _ _.
      apply andb_true_iff in Eb. destruct Eb as [Eb _].
      apply fltb_fgtb_exclusive in Eb. rewrite Eb. cbn [andb].
      split; split; try (intros; discriminate); auto.
      intros [_ H]. discriminate H.
    + destruct ((nth n (ema_indicator (x :: df') 10) NaN
                 <? nth n (ema_indicator (x :: df') 30) NaN)
                && (nth n (rsi (x :: df') 7) NaN >? Fin 30)) eqn:Es.
      * injection Hg as <- _ _.
        split; split; try (intros; discriminate); auto.
        intros [_ H]. discriminate H.
      * injection Hg as <- _ _.
        split; split; try (intros; discriminate);
          intros [_ H]; discriminate H.
Qed.

(* ================================================================= *)
(** ** The book of positions *)

Lemma book_append_keys ticker pos b :
  map fst (book_append ticker pos b)
  = if existsb (fun t => String.eqb t ticker) (map fst b)
    then map fst b else map fst b ++ [ticker].
Proof.
  induction b as [| [t lots] rest IH]; [reflexivity |].
  cbn [book_append map fst existsb].
  destruct (String.eqb t ticker) eqn:E; cbn [orb map fst]; [reflexivity |].
  rewrite IH. destruct (existsb _ _); reflexivity.
Qed.

Lemma lot_count_cons t lots (rest : book) :
  lot_count ((t, lots) :: rest) = (List.length lots + lot_count rest)%nat.
Proof. reflexivity. Qed.

Lemma lot_count_append ticker pos b :
  lot_count (book_append ticker pos b) = S (lot_count b).
Proof.
  induction b as [| [t lots] rest IH]; [reflexivity |].
  cbn [book_append]. destruct (String.eqb t ticker).
  - rewrite !lot_count_cons, length_app. cbn [List.length]. lia.
  - rewrite !lot_count_cons, IH. lia.
Qed.

(** X5.  Appending a lot and looking it up: after
    [positions[ticker].append(pos)] the lots of [ticker] are the former
    ones followed by [pos], the lots of every other ticker are what they
    were, the tickers keep their order (a new one goes last), and the book
    holds one lot more. *)
Theorem book_append_get (ticker other : string) (pos : position) (b : book) :
  book_get ticker (book_append ticker pos b) = book_get ticker b ++ [pos]
  /\ (other <> ticker ->
      book_get other (book_append ticker pos b) = book_get other b)
  /\ map fst (book_append ticker pos b)
     = (if existsb (fun t => String.eqb t ticker) (map fst b)
        then map fst b else map fst b ++ [ticker])
  /\ lot_count (book_append ticker pos b) = S (lot_count b).
Proof.
  split; [apply book_get_append_same |].
  split; [apply book_get_append_other |].
  split; [apply book_append_keys | apply lot_count_append].
Qed.

(* ================================================================= *)
(** ** Opening is append-only *)

Lemma book_get_opened t cap total rows : forall b,
  book_get t
    (fold_left
       (fun b row =>
          book_append (top_Stock row) (lot_of_row cap total row) b)
       rows b)
  = book_get t b
    ++ map (lot_of_row cap total)
         (filter (fun row => String.eqb (top_Stock row) t) rows).
Proof.
  induction rows as [| row rows IH]; intro b; cbn [fold_left filter].
  - rewrite app_nil_r. reflexivity.
  - rewrite IH.
    destruct (String.eqb (top_Stock row) t) eqn:E.
    + apply String.eqb_eq in E. subst t.
      rewrite book_get_append_same. cbn [map].
      rewrite <- app_assoc. reflexivity.
    + rewrite book_get_append_other; [reflexivity |].
      intro H. subst t. rewrite String.eqb_refl in E. discriminate E.
Qed.

Lemma lot_count_opened cap total rows : forall b,
  lot_count
    (fold_left
       (fun b row =>
          book_append (top_Stock row) (lot_of_row cap total row) b)
       rows b)
  = (lot_count b + List.length rows)%nat.
Proof.
  induction rows as [| row rows IH]; intro b; cbn [fold_left List.length].
  - lia.
  - rewrite IH, lot_count_append. lia.
Qed.

(** X6.  Opening is append-only: after the loop of lines 97-113 the lots
    of any ticker are the lots it had, unchanged and in place, followed by
    one new open lot per top signal of that ticker, in the order of the
    signals; one alert per signal is appended after the alerts there were;
    the equity curve is untouched. *)
Theorem open_positions_appends (rows : list top_signal)
  (st : session_state) (t : string) :
  let st' := open_positions rows st in
  book_get t (positions st')
  = book_get t (positions st)
    ++ map (lot_of_row (capital st) (total_score_of rows))
         (filter (fun row => String.eqb (top_Stock row) t) rows)
  /\ Forall (fun row =>
               status (lot_of_row (capital st) (total_score_of rows) row)
               = open) rows
  /\ alerts st'
     = alerts st
       ++ map (fun row => NewBuy (top_Stock row) (Buy_Price row)) rows
  /\ equity_curve st' = equity_curve st
  /\ lot_count (positions st')
     = (lot_count (positions st) + List.length rows)%nat.
Proof.
  intro st'. subst st'. unfold open_positions.
  rewrite open_positions_fold. cbn [positions alerts equity_curve].
  split; [apply book_get_opened |].
  split; [apply Forall_forall; intros; reflexivity |].
  split; [reflexivity |]. split; [reflexivity |].
  apply lot_count_opened.
Qed.

(* ================================================================= *)
(** ** One tab *)

Lemma top_buy_signals_length (S : Sorter) (n : nat) (df : list result_row) :
  sorts_descending S ->
  List.length (top_buy_signals n df)
  = Nat.min n (List.length (filter is_buy df)).
Proof.
  intro HS. unfold top_buy_signals.
  destruct (HS (filter is_buy df)) as [Hperm _].
  rewrite length_firstn, (Permutation_length Hperm). reflexivity.
Qed.

Lemma process_exchange_opens (S : Sorter) st df :
  process_exchange st df
  = open_positions (top_signals_list (buy_signals df)) st
  \/ (df = [] /\ process_exchange st df = st).
Proof.
  destruct df; [right; split; reflexivity | left; reflexivity].
Qed.

(** X7.  A tab opens at most [TOP_N] lots: for any descending sort, one
    tab adds [min(5, m)] lots and as many alerts, [m] being the number of
    rows of its frame with the signal 1; a frame without such a row (and
    the empty frame) leaves the session state as it was. *)
Theorem tab_opens_at_most_top_n (S : Sorter) (st : session_state)
  (df : list result_row) :
  sorts_descending S ->
  let m := List.length (filter is_buy df) in
  let st' := process_exchange st df in
  lot_count (positions st') = (lot_count (positions st) + Nat.min 5 m)%nat
  /\ List.length (alerts st')
     = (List.length (alerts st) + Nat.min 5 m)%nat
  /\ (m = 0%nat -> st' = st).
Proof.
  intros HS m st'.
  assert (Hlen : List.length (top_signals_list (buy_signals df))
                 = Nat.min 5 m).
  { unfold top_signals_list, buy_signals. rewrite length_map.
    apply (top_buy_signals_length S TOP_N df HS). }
  destruct (process_exchange_opens S st df) as [E | [-> E]].
  - subst st'. rewrite E. unfold open_positions.
    rewrite open_positions_fold. cbn [positions alerts].
    split; [| split].
    + rewrite <- Hlen.
      apply (lot_count_opened (capital st)
               (total_score_of (top_signals_list (buy_signals df)))).
    + rewrite length_app, length_map. rewrite Hlen. reflexivity.
    + intro Hm. rewrite Hm in Hlen.
      destruct (top_signals_list (buy_signals df));
        [| simpl in Hlen; discriminate Hlen].
      cbn. rewrite app_nil_r. destruct st; reflexivity.
  - subst st' m. rewrite E. cbn. split; [lia | split; [lia | reflexivity]].
Qed.

Lemma tab_opens_at_most_top_n_witness :
  let df := [ {| Stock := "AAPL"; Signal := 0; Price := Fin 100;
                 Score := Fin 0 |};
              {| Stock := "MSFT"; Signal := (-1); Price := Fin 300;
                 Score := Fin 7 |} ] in
  sorts_descending stable_sorter
  /\ @process_exchange stable_sorter initial_state df = initial_state.
Proof.
  intro df.
  split; [exact (insertion_sort_descending true) |].
  apply (tab_opens_at_most_top_n stable_sorter initial_state df
           (insertion_sort_descending true)).
  reflexivity.
Defined.

(* ================================================================= *)
(** ** One pass of the check loop *)

Lemma lot_evolves_refl pos : lot_evolves pos pos.
Proof. unfold lot_evolves. auto. Qed.

(** One check either keeps the status, the cash and the alerts, or closes
    the lot, credits it and appends one alert. *)
Lemma check_position_summary ticker df_price pos cap log :
  let '(pos', cap', log') := check_position ticker df_price (pos, cap, log) in
  lot_evolves pos pos'
  /\ ((status pos' = status pos /\ cap' = cap /\ log' = log)
      \/ (status pos = open /\ status pos' = closed
          /\ cap' = cap + shares pos * df_price
          /\ exists mk, close_alert mk /\ log' = log ++ [mk ticker df_price])).
Proof.
  destruct (status pos) eqn:Hst.
  - destruct (check_position_open ticker df_price pos cap log Hst)
      as [[E _] | [[E _] | [E _]]]; rewrite E.
    + split; [unfold lot_evolves; cbn; repeat split; congruence |].
      right. repeat split. exists ClosedTrailingStop.
      split; [left |]; reflexivity.
    + split; [unfold lot_evolves; cbn; repeat split; congruence |].
      right. repeat split. exists ClosedTakeProfit.
      split; [right |]; reflexivity.
    + split; [unfold lot_evolves; cbn; repeat split; congruence |].
      left. cbn. auto.
  - rewrite check_position_closed by exact Hst.
    split; [apply lot_evolves_refl | left; auto].
Qed.

Lemma open_count_cons pos rest :
  open_count (pos :: rest)
  = ((if is_open pos then 1 else 0) + open_count rest)%nat.
Proof. unfold open_count. cbn [filter]. destruct (is_open pos); reflexivity. Qed.

(** X8.  Every close is reported once: in one pass of the loop of lines
    152-167 over the lots of a ticker, the number of alerts appended is the
    number of lots that went from open to closed, the former alerts are
    kept in front, no closed lot is reopened, and when no lot is closed the
    cash is what it was. *)
Theorem check_lots_reports_closes (ticker : string) (df_price : float)
  (pos_list : list position) (cap : float) (log : list alert) :
  let '(pos_list', cap', log') :=
    check_lots ticker df_price pos_list cap log in
  (List.length log' + open_count pos_list'
   = List.length log + open_count pos_list)%nat
  /\ (exists added, log' = log ++ added)
  /\ (open_count pos_list' <= open_count pos_list)%nat
  /\ (open_count pos_list' = open_count pos_list -> cap' = cap).
Proof.
  revert cap log.
  induction pos_list as [| pos rest IH]; intros cap log.
  - cbn. repeat split; auto. exists []. rewrite app_nil_r. reflexivity.
  - cbn [check_lots].
    pose proof (check_position_summary ticker df_price pos cap log) as H1.
    destruct (check_position ticker df_price (pos, cap, log))
      as [[pos' cap1] log1].
    specialize (IH cap1 log1).
    destruct (check_lots ticker df_price rest cap1 log1)
      as [[rest' cap2] log2].
    destruct IH as (IHn & [added IHl] & IHle & IHc).
    rewrite !open_count_cons. unfold is_open.
    destruct H1 as [_ [(Hs & -> & ->) | (Ho & Hc & -> & mk & _ & ->)]].
    + rewrite Hs. repeat split.
      * lia.
      * exists added. exact IHl.
      * lia.
      * intro H. apply IHc. lia.
    + rewrite Ho, Hc. rewrite length_app in IHn. cbn [List.length] in IHn.
      repeat split.
      * lia.
      * exists ([mk ticker df_price] ++ added).
        rewrite IHl, <- app_assoc. reflexivity.
      * lia.
      * intro H. lia.
Qed.

Lemma check_lots_evolves ticker df_price pos_list : forall cap log,
  Forall2 lot_evolves pos_list
    (fst (fst (check_lots ticker df_price pos_list cap log))).
Proof.
  induction pos_list as [| pos rest IH]; intros cap log.
  - constructor.
  - cbn [check_lots].
    pose proof (check_position_summary ticker df_price pos cap log) as H1.
    destruct (check_position ticker df_price (pos, cap, log))
      as [[pos' cap1] log1].
    specialize (IH cap1 log1).
    destruct (check_lots ticker df_price rest cap1 log1)
      as [[rest' cap2] log2].
    cbn [fst] in *. constructor; [apply H1 | exact IH].
Qed.

Lemma Forall2_lot_evolves_refl l : Forall2 lot_evolves l l.
Proof. induction l; constructor; [apply lot_evolves_refl | assumption]. Qed.

(** X9.  The check loop of lines 144-167 never removes, adds or reorders
    a lot and never rewrites its entry price, its shares, its stop loss or
    its take-profit level; a lot that is closed comes out identical.  This
    holds for every ticker, whether or not the loop is stopped by a
    [KeyError]. *)
Theorem check_book_keeps_lots (frames : list (list result_row)) (b : book)
  (cap : float) (log : list alert) (t : string) :
  Forall2 lot_evolves (book_get t b)
    (book_get t (fst (fst (fst (check_book frames b cap log))))).
Proof.
  revert cap log.
  induction b as [| [ticker pos_list] rest IH]; intros cap log.
  - constructor.
  - cbn [check_book].
    destruct (find_price ticker frames) as [| | df_price].
    + apply Forall2_lot_evolves_refl.
    + specialize (IH cap log).
      destruct (check_book frames rest cap log) as [[[rest' c'] l'] r'].
      cbn [fst book_get] in *.
      destruct (String.eqb ticker t);
        [apply Forall2_lot_evolves_refl | exact IH].
    + pose proof (check_lots_evolves ticker df_price pos_list cap log) as H1.
      destruct (check_lots ticker df_price pos_list cap log)
        as [[pos_list' cap1] log1].
      specialize (IH cap1 log1).
      destruct (check_book frames rest cap1 log1) as [[[rest' c'] l'] r'].
      cbn [fst book_get] in *.
      destruct (String.eqb ticker t); [exact H1 | exact IH].
Qed.

(** X10.  A stale quote: the lots of a ticker for which no frame has a
    row (lines 150-151) come out of the check loop as they were, and they
    add nothing to the total value of lines 170-180. *)
Theorem stale_quote_skipped (frames : list (list result_row)) (b : book)
  (cap : float) (log : list alert) (t : string) (lots : list position)
  (total : float) :
  find_price t frames = NoPrice ->
  book_get t (fst (fst (fst (check_book frames b cap log)))) = book_get t b
  /\ total_value frames ((t, lots) :: b) total = total_value frames b total.
Proof.
  intro Hno. split.
  - revert cap log.
    induction b as [| [ticker pos_list] rest IH]; intros cap log;
      [reflexivity |].
    cbn [check_book].
    destruct (String.eqb ticker t) eqn:E.
    + apply String.eqb_eq in E. subst ticker. rewrite Hno.
      destruct (check_book frames rest cap log) as [[[rest' c'] l'] r'].
      cbn [fst book_get]. rewrite String.eqb_refl. reflexivity.
    + destruct (find_price ticker frames) as [| | df_price].
      * reflexivity.
      * specialize (IH cap log).
        destruct (check_book frames rest cap log) as [[[rest' c'] l'] r'].
        cbn [fst book_get] in *. rewrite E. exact IH.
      * destruct (check_lots ticker df_price pos_list cap log)
          as [[pos_list' cap1] log1].
        specialize (IH cap1 log1).
        destruct (check_book frames rest cap1 log1) as [[[rest' c'] l'] r'].
        cbn [fst book_get] in *. rewrite E. exact IH.
  - cbn [total_value]. rewrite Hno. reflexivity.
Qed.

Lemma stale_quote_skipped_witness :
  let frames := [[ {| Stock := "AAPL"; Signal := 0; Price := Fin 100;
                      Score := Fin 0 |} ]] in
  let lot := new_position (Fin 50) (Fin 10) in
  find_price "MSFT" frames = NoPrice
  /\ book_get "MSFT"
       (fst (fst (fst (check_book frames [("MSFT", [lot])] (Fin 0) []))))
     = [lot].
Proof.
  intros frames lot. split; [reflexivity |].
  apply (stale_quote_skipped frames [("MSFT", [lot])] (Fin 0) [] "MSFT"
           [] (Fin 0)).
  reflexivity.
Defined.

(* ================================================================= *)
(** ** The price lookup and its [KeyError] *)

Lemma find_price_nonempty ticker frames :
  Forall (fun df => df <> []) frames -> find_price ticker frames <> KeyError.
Proof.
  induction 1 as [| df frames Hdf _ IH]; cbn [find_price]; [discriminate |].
  destruct df as [| row df']; [congruence |].
  destruct (find _ _); [discriminate | exact IH].
Qed.

Lemma find_price_empty_frame ticker before after :
  Forall (fun df => df <> []
                    /\ forall row, In row df -> Stock row <> ticker) before ->
  find_price ticker (before ++ [] :: after) = KeyError.
Proof.
  induction 1 as [| df before [Hne Hno] _ IH]; [reflexivity |].
  cbn [app find_price].
  destruct df as [| row df']; [congruence |].
  destruct (find _ _) as [r |] eqn:E; [| exact IH].
  apply find_some in E. destruct E as [Hin Heq].
  apply String.eqb_eq in Heq. elim (Hno r Hin Heq).
Qed.

Lemma check_book_no_key_error frames :
  Forall (fun df => df <> []) frames ->
  forall b cap log, snd (check_book frames b cap log) = false.
Proof.
  intros Hf b.
  induction b as [| [ticker pos_list] rest IH]; intros cap log;
    [reflexivity |].
  cbn [check_book].
  pose proof (find_price_nonempty ticker frames Hf) as Hk.
  destruct (find_price ticker frames) as [| | df_price]; [congruence | |].
  - specialize (IH cap log).
    destruct (check_book frames rest cap log) as [[[rest' c'] l'] r'].
    exact IH.
  - destruct (check_lots ticker df_price pos_list cap log)
      as [[pos_list' cap1] log1].
    specialize (IH cap1 log1).
    destruct (check_book frames rest cap1 log1) as [[[rest' c'] l'] r'].
    exact IH.
Qed.

Lemma total_value_no_key_error frames :
  Forall (fun df => df <> []) frames ->
  forall b total, total_value frames b total <> None.
Proof.
  intros Hf b.
  induction b as [| [ticker pos_list] rest IH]; intro total;
    [discriminate |].
  cbn [total_value].
  pose proof (find_price_nonempty ticker frames Hf) as Hk.
  destruct (find_price ticker frames); [congruence | apply IH | apply IH].
Qed.

(** X11.  When every exchange frame has at least one row, neither the
    check loop nor the equity update raises: the check loop runs to its
    end and the total value is computed. *)
Theorem no_key_error_with_rows (frames : list (list result_row))
  (st : session_state) :
  Forall (fun df => df <> []) frames ->
  snd (check_positions frames st) = false
  /\ exists v, total_value frames (positions st) (capital st) = Some v.
Proof.
  intro Hf. split.
  - unfold check_positions.
    pose proof (check_book_no_key_error frames Hf (positions st)
                  (capital st) (alerts st)) as H.
    destruct (check_book frames (positions st) (capital st) (alerts st))
      as [[[b c] l] r].
    exact H.
  - pose proof (total_value_no_key_error frames Hf (positions st)
                  (capital st)) as H.
    destruct (total_value frames (positions st) (capital st)) as [v |];
      [exists v; reflexivity | congruence].
Qed.

Lemma no_key_error_with_rows_witness :
  let frames := [[ {| Stock := "AAPL"; Signal := 0; Price := Fin 100;
                      Score := Fin 0 |} ]] in
  let st := {| equity_curve := []; capital := Fin 5;
               positions := [("AAPL", [new_position (Fin 90) (Fin 2)])];
               alerts := [] |} in
  Forall (fun df : list result_row => df <> []) frames
  /\ snd (check_positions frames st) = false.
Proof.
  intros frames st.
  assert (Hf : Forall (fun df : list result_row => df <> []) frames)
    by (repeat constructor; discriminate).
  split; [exact Hf |].
  apply (no_key_error_with_rows frames st Hf).
Defined.

(** X12.  An exchange without any row stops the run: when a position is
    held for a ticker that has no row in the frames that come before a
    frame without rows, the price lookup of line 147 raises [KeyError] at
    that ticker; if it is the first ticker of the book, the check loop
    stops at once, with the session state untouched, and the equity update
    of lines 170-181 would raise as well. *)
Theorem key_error_on_empty_frame (before after : list (list result_row))
  (st : session_state) (t : string) (lots : list position) (rest : book) :
  Forall (fun df => df <> []
                    /\ forall row, In row df -> Stock row <> t) before ->
  positions st = (t, lots) :: rest ->
  let frames := before ++ [] :: after in
  find_price t frames = KeyError
  /\ check_positions frames st = (st, true)
  /\ total_value frames (positions st) (capital st) = None.
Proof.
  intros Hb Hp frames.
  assert (Hk : find_price t frames = KeyError)
    by (apply find_price_empty_frame; exact Hb).
  split; [exact Hk |]. split.
  - unfold check_positions. rewrite Hp. cbn [check_book]. rewrite Hk.
    rewrite <- Hp. destruct st; reflexivity.
  - rewrite Hp. cbn [total_value]. rewrite Hk. reflexivity.
Qed.

Lemma key_error_on_empty_frame_witness :
  let st := {| equity_curve := [Fin 100000]; capital := Fin 100000;
               positions := [("AAPL", [new_position (Fin 90) (Fin 2)])];
               alerts := [] |} in
  let nasdaq := [ {| Stock := "AAPL"; Signal := 0; Price := Fin 100;
                     Score := Fin 0 |} ] in
  check_positions ([] :: [nasdaq; []]) st = (st, true).
Proof.
  intros st nasdaq.
  apply (key_error_on_empty_frame [] [nasdaq; []] st "AAPL"
           [new_position (Fin 90) (Fin 2)] []
           (Forall_nil _) eq_refl).
Defined.

(* ================================================================= *)
(** ** The total value *)

Lemma add_open_value_filter df_price pos_list : forall total,
  add_open_value df_price pos_list total
  = add_open_value df_price (filter is_open pos_list) total.
Proof.
  unfold add_open_value.
  induction pos_list as [| pos rest IH]; intro total; [reflexivity |].
  cbn [fold_left filter]. unfold is_open at 1.
  destruct (status pos) eqn:E.
  - cbn [fold_left]. rewrite E. apply IH.
  - apply IH.
Qed.

(** X13.  Closed lots are not marked to market: the total value of lines
    170-180 is the one of the book from which every closed lot has been
    taken out; for a book whose lots are all closed it is the cash (or the
    [KeyError] of the lookup). *)
Theorem total_value_ignores_closed (frames : list (list result_row))
  (b : book) (total : float) :
  total_value frames b total
  = total_value frames
      (map (fun e => (fst e, filter is_open (snd e))) b) total
  /\ (Forall (fun e => Forall (fun pos => status pos = closed) (snd e)) b ->
      total_value frames b total = Some total
      \/ total_value frames b total = None).
Proof.
  split.
  - revert total.
    induction b as [| [ticker pos_list] rest IH]; intro total;
      [reflexivity |].
    cbn [total_value map fst snd].
    destruct (find_price ticker frames); [reflexivity | apply IH |].
    rewrite <- add_open_value_filter. apply IH.
  - revert total.
    induction b as [| [ticker pos_list] rest IH]; intros total Hc;
      [left; reflexivity |].
    inversion Hc as [| ? ? Hl Hr]; subst. cbn [snd] in Hl.
    cbn [total_value].
    destruct (find_price ticker frames); [right; reflexivity | auto |].
    assert (E : add_open_value df_price pos_list total = total).
    { clear - Hl. unfold add_open_value. revert total.
      induction Hl as [| pos l Hp _ IHl]; intro total; [reflexivity |].
      cbn [fold_left]. rewrite Hp. apply IHl. }
    rewrite E. auto.
Qed.

(* ================================================================= *)
(** ** A whole run *)

Lemma process_exchange_grows (S : Sorter) st df :
  let st' := process_exchange st df in
  (exists added, alerts st' = alerts st ++ added)
  /\ equity_curve st' = equity_curve st
  /\ (lot_count (positions st) <= lot_count (positions st'))%nat.
Proof.
  destruct df as [| row df']; cbn [process_exchange].
  - split; [exists []; rewrite app_nil_r; reflexivity | split; auto].
  - unfold open_positions. rewrite open_positions_fold.
    cbn [alerts equity_curve positions].
    split; [eexists; reflexivity | split; [reflexivity |]].
    pose proof (lot_count_opened (capital st)
                  (total_score_of (top_signals_list (buy_signals (row :: df'))))
                  (top_signals_list (buy_signals (row :: df')))
                  (positions st)) as H.
    unfold lot_of_row in H. rewrite H. lia.
Qed.

Lemma tabs_grow (S : Sorter) frames : forall st,
  let st' := fold_left process_exchange frames st in
  (exists added, alerts st' = alerts st ++ added)
  /\ equity_curve st' = equity_curve st
  /\ (lot_count (positions st) <= lot_count (positions st'))%nat.
Proof.
  induction frames as [| df frames IH]; intro st; cbn [fold_left].
  - split; [exists []; rewrite app_nil_r; reflexivity | split; auto].
  - destruct (process_exchange_grows S st df) as ([a1 E1] & Q1 & L1).
    destruct (IH (process_exchange st df)) as ([a2 E2] & Q2 & L2).
    split; [| split].
    + exists (a1 ++ a2). rewrite E2, E1, app_assoc. reflexivity.
    + rewrite Q2. exact Q1.
    + lia.
Qed.

Lemma check_lots_log_app ticker df_price pos_list : forall cap log,
  exists added,
    snd (check_lots ticker df_price pos_list cap log) = log ++ added.
Proof.
  induction pos_list as [| pos rest IH]; intros cap log.
  - exists []. cbn. rewrite app_nil_r. reflexivity.
  - cbn [check_lots].
    pose proof (check_position_summary ticker df_price pos cap log) as H1.
    destruct (check_position ticker df_price (pos, cap, log))
      as [[pos' cap1] log1].
    destruct (IH cap1 log1) as [a2 E2].
    destruct (check_lots ticker df_price rest cap1 log1)
      as [[rest' cap2] log2].
    cbn [snd] in *. subst log2.
    destruct H1 as [_ [(_ & _ & ->) | (_ & _ & _ & mk & _ & ->)]].
    + exists a2. reflexivity.
    + exists ([mk ticker df_price] ++ a2). rewrite <- app_assoc. reflexivity.
Qed.

Lemma check_book_grows frames b : forall cap log,
  let '(b', _, log', _) := check_book frames b cap log in
  (exists added, log' = log ++ added) /\ lot_count b' = lot_count b.
Proof.
  induction b as [| [ticker pos_list] rest IH]; intros cap log.
  - cbn. split; [exists []; rewrite app_nil_r |]; reflexivity.
  - cbn [check_book].
    destruct (find_price ticker frames) as [| | df_price].
    + split; [exists []; rewrite app_nil_r |]; reflexivity.
    + specialize (IH cap log).
      destruct (check_book frames rest cap log) as [[[rest' c'] l'] r'].
      destruct IH as [IH1 IH2]. split; [exact IH1 |].
      rewrite !lot_count_cons, IH2. reflexivity.
    + destruct (check_lots_log_app ticker df_price pos_list cap log)
        as [a1 E1].
      pose proof (check_lots_length ticker df_price pos_list cap log) as Hl.
      destruct (check_lots ticker df_price pos_list cap log)
        as [[pos_list' cap1] log1].
      cbn [fst snd] in *. subst log1.
      specialize (IH cap1 (log ++ a1)).
      destruct (check_book frames rest cap1 (log ++ a1))
        as [[[rest' c'] l'] r'].
      destruct IH as [[a2 E2] IH2]. split.
      * exists (a1 ++ a2). rewrite E2, app_assoc. reflexivity.
      * rewrite !lot_count_cons, IH2, Hl. reflexivity.
Qed.

(** X14.  The logs are append-only over a run, whatever the market, the
    indicators and the sort: the alerts of the session come out with the
    former alerts in front, no lot is dropped from the book, and the
    equity curve gets exactly one new entry when the run completes and
    none when an exception stops it. *)
Theorem run_cycle_appends (M : MarketData) (I : Indicators) (S : Sorter)
  (st : session_state) :
  let st' := state_of_run (run_cycle st) in
  (exists added, alerts st' = alerts st ++ added)
  /\ (lot_count (positions st) <= lot_count (positions st'))%nat
  /\ match run_cycle st with
     | Completed _ => exists v, equity_curve st' = equity_curve st ++ [v]
     | Stopped _ => equity_curve st' = equity_curve st
     end.
Proof.
  cbv zeta. unfold run_cycle.
  set (frames := map snd exchange_results).
  destruct (tabs_grow S frames st) as ([a1 E1] & Q1 & L1).
  set (st1 := fold_left process_exchange frames st) in *.
  unfold check_positions.
  pose proof (check_book_grows frames (positions st1) (capital st1)
                (alerts st1)) as H2.
  destruct (check_book frames (positions st1) (capital st1) (alerts st1))
    as [[[b2 c2] l2] raised].
  destruct H2 as [[a2 E2] L2].
  assert (Ha : l2 = alerts st ++ (a1 ++ a2))
    by (rewrite E2, E1, app_assoc; reflexivity).
  destruct raised; cbn [state_of_run alerts positions equity_curve capital].
  - split; [eexists; exact Ha | split; [lia | exact Q1]].
  - destruct (total_value frames b2 c2) as [v |];
      cbn [state_of_run alerts positions equity_curve capital].
    + split; [eexists; exact Ha | split; [lia |]].
      exists v. rewrite Q1. reflexivity.
    + split; [eexists; exact Ha | split; [lia | exact Q1]].
Qed.

(* ================================================================= *)
(** ** Rounded prices and the first check of a new lot *)

Section Rounding.

Local Open Scope Q_scope.

Lemma round_half_even_near (q : Q) :
  inject_Z (round_half_even q) - q <= 1 # 2
  /\ q - inject_Z (round_half_even q) <= 1 # 2.
Proof.
  unfold round_half_even.
  pose proof (Qfloor_le q) as Hlo.
  pose proof (Qlt_floor q) as Hhi.
  rewrite inject_Z_plus in Hhi. change (inject_Z 1) with 1 in Hhi.
  assert (Hup : inject_Z (Qfloor q + 1) == inject_Z (Qfloor q) + 1)
    by (rewrite inject_Z_plus; reflexivity).
  destruct (Qcompare (q - inject_Z (Qfloor q)) (1 # 2)) eqn:E.
  - apply Qeq_alt in E.
    destruct (Z.even (Qfloor q)); [| rewrite Hup]; lra.
  - apply Qlt_alt in E. lra.
  - apply Qgt_alt in E. rewrite Hup. lra.
Qed.

Lemma round2_near (p : Q) :
  exists b, round2 (Fin p) = Fin b /\ b - p <= 1 # 200 /\ p - b <= 1 # 200.
Proof.
  eexists. split; [reflexivity |].
  destruct (round_half_even_near (p * 100)) as [H1 H2].
  set (r := inject_Z (round_half_even (p * 100))) in *.
  assert (E : r / 100 == r * (1 # 100)) by (field; discriminate).
  rewrite E. lra.
Qed.

Lemma stop_factor :
  exists k, (Fin 1 - STOP_LOSS / Fin 100)%F = Fin k /\ k == 199 # 200.
Proof. eexists. split; [vm_compute; reflexivity | reflexivity]. Qed.

Lemma profit_factor :
  exists k, (Fin 1 + TAKE_PROFIT / Fin 100)%F = Fin k /\ k == 101 # 100.
Proof. eexists. split; [vm_compute; reflexivity | reflexivity]. Qed.

Lemma Qle_bool_false (a b : Q) : Qle_bool a b = false <-> b < a.
Proof.
  rewrite <- Qltb_lt. unfold Qltb. destruct (Qle_bool a b); simpl;
    split; congruence.
Qed.

End Rounding.

(** X16.  The check of the run that opens a lot does not close it: a lot
    opened at the rounded price of a signal whose price is a number of at
    least 1.00 is checked, in the same run, against that price, and comes
    out open, with the cash and the alerts untouched; only its trailing
    stop is set by the ratchet. *)
Theorem fresh_lot_stays_open (ticker : string) (p : Q) (shares_ : float)
  (cap : float) (log : list alert) :
  (1 <= p)%Q ->
  let lot := new_position (round2 (Fin p)) shares_ in
  check_position ticker (Fin p) (lot, cap, log)
  = (set_trailing_stop lot (ratchet lot (Fin p)), cap, log)
  /\ status lot = open.
Proof.
  intros Hp lot. split; [| reflexivity].
  destruct (round2_near p) as (b & Eb & Hb1 & Hb2).
  destruct stop_factor as (k & Ek & Hk).
  destruct profit_factor as (g & Eg & Hg).
  assert (Hts : trailing_stop lot = Fin (b * k)%Q).
  { subst lot. unfold new_position. cbn [trailing_stop].
    rewrite Eb, Ek. reflexivity. }
  assert (Htp : take_profit lot = Fin (b * g)%Q).
  { subst lot. unfold new_position. cbn [take_profit].
    rewrite Eb, Eg. reflexivity. }
  assert (H1 : (Fin p <=? ratchet lot (Fin p)) = false).
  { unfold ratchet. rewrite Hts, Ek. cbn [fmul].
    unfold py_max, fgtb. cbn [fltb].
    destruct (Qltb (b * k) (p * k)); cbn [fleb];
      apply Qle_bool_false; nra. }
  assert (H2 : (Fin p >=? take_profit lot) = false).
  { unfold fgeb. rewrite Htp. cbn [fleb]. apply Qle_bool_false. nra. }
  destruct (check_position_open ticker (Fin p) lot cap log eq_refl)
    as [[_ E] | [(_ & _ & E) | [E _]]]; [congruence | congruence | exact E].
Qed.

Lemma fresh_lot_stays_open_witness :
  status
    (fst (fst (check_position "AAPL" (Fin 102.3456)
                 (new_position (round2 (Fin 102.3456)) (Fin 980),
                  Fin 100000, []))))
  = open.
Proof.
  rewrite (proj1 (fresh_lot_stays_open "AAPL" 102.3456 (Fin 980)
                    (Fin 100000) [] ltac:(discriminate))).
  reflexivity.
Defined.

(** X17.  A single top signal is sized against the whole cash: when the
    table has one row, with a score that is a positive number and a price
    that is a positive number, the lot gets [floor(C / price)] shares,
    whatever the score. *)
Theorem single_signal_gets_all_cash (row : top_signal) (C : Q) :
  candidate row ->
  (0 < Qof (top_Score row))%Q ->
  (0 <= C)%Q ->
  shares_of (Fin C) (total_score_of [row]) row
  = Fin (inject_Z (Qfloor (C / Qof (Buy_Price row))%Q)).
Proof.
  intros Hc Hs HC.
  assert (Ht : total_score_of [row] = Fin (0 + Qof (top_Score row))%Q).
  { destruct Hc as (Hf & _). cbn [total_score_of map]. unfold fsum.
    destruct (top_Score row); try discriminate. reflexivity. }
  rewrite Ht.
  destruct (sizing_of_candidate C (0 + Qof (top_Score row))%Q row Hc HC
              ltac:(lra)) as (_ & E & _).
  rewrite E. f_equal. f_equal. apply Qfloor_comp.
  destruct Hc as (_ & _ & _ & Hp). field. split; intro; lra.
Qed.

Lemma single_signal_gets_all_cash_witness :
  shares_of (Fin 100000)
    (total_score_of [ {| top_Stock := "AAPL"; Buy_Price := Fin 102;
                         Sell_Price := Fin 103.02; top_Score := Fin 7.56 |} ])
    {| top_Stock := "AAPL"; Buy_Price := Fin 102;
       Sell_Price := Fin 103.02; top_Score := Fin 7.56 |}
  = Fin (inject_Z (Qfloor (100000 / 102)%Q)).
Proof.
  apply (single_signal_gets_all_cash
           {| top_Stock := "AAPL"; Buy_Price := Fin 102;
              Sell_Price := Fin 103.02; top_Score := Fin 7.56 |} 100000).
  - repeat split; simpl; lra.
  - simpl. lra.
  - lra.
Defined.

(* ================================================================= *)
(** ** What a tab acts on *)

Lemma sort_values_nil (S : Sorter) :
  sorts_descending S -> sort_values [] = [].
Proof.
  intro HS. destruct (HS []) as [Hperm _].
  apply Permutation_nil. symmetry. exact Hperm.
Qed.

Lemma filter_is_buy_idem (df : list result_row) :
  filter is_buy (filter is_buy df) = filter is_buy df.
Proof.
  induction df as [| row df IH]; [reflexivity |].
  cbn [filter]. destruct (is_buy row) eqn:E; [| exact IH].
  cbn [filter]. rewrite E, IH. reflexivity.
Qed.

Lemma open_positions_nil st : open_positions [] st = st.
Proof. unfold open_positions. cbn. reflexivity. Qed.

(** X18.  Sell and neutral rows are never acted on: for any descending
    sort, a tab leaves the session state it would leave if its frame held
    only the rows with the signal 1. *)
Theorem tab_reads_buy_rows_only (S : Sorter) (st : session_state)
  (df : list result_row) :
  sorts_descending S ->
  process_exchange st df = process_exchange st (filter is_buy df).
Proof.
  intro HS.
  assert (Hb : forall l, buy_signals (filter is_buy l) = buy_signals l).
  { intro l. unfold buy_signals, top_buy_signals.
    rewrite filter_is_buy_idem. reflexivity. }
  destruct df as [| row df']; [reflexivity |].
  destruct (filter is_buy (row :: df')) as [| r l] eqn:E.
  - cbn [process_exchange].
    unfold buy_signals, top_buy_signals. rewrite E.
    rewrite (sort_values_nil S HS). rewrite firstn_nil.
    apply open_positions_nil.
  - cbn [process_exchange]. rewrite <- E, Hb. reflexivity.
Qed.

Lemma tab_reads_buy_rows_only_witness :
  let buy := {| Stock := "AAPL"; Signal := 1; Price := Fin 100;
                Score := Fin 5 |} in
  let sell := {| Stock := "MSFT"; Signal := (-1); Price := Fin 300;
                 Score := Fin 9 |} in
  @process_exchange stable_sorter initial_state [sell; buy]
  = @process_exchange stable_sorter initial_state [buy].
Proof.
  intros buy sell.
  apply (tab_reads_buy_rows_only stable_sorter initial_state [sell; buy]
           (insertion_sort_descending true)).
Defined.

(** X19.  A lot is only opened on a buy signal of the tab's own frame:
    for any descending sort, every alert a tab appends is a new-buy alert
    for a row of the frame that has the signal 1, at that row's price
    rounded to the cent. *)
Theorem tab_opens_on_buy_rows (S : Sorter) (st : session_state)
  (df : list result_row) :
  sorts_descending S ->
  exists added,
    alerts (process_exchange st df) = alerts st ++ added
    /\ Forall
         (fun a =>
            exists row,
              In row df /\ Signal row = 1%Z
              /\ a = NewBuy (Stock row) (round2 (Price row)))
         added.
Proof.
  intro HS.
  destruct df as [| r df']; cbn [process_exchange].
  - exists []. rewrite app_nil_r. split; [reflexivity | constructor].
  - unfold open_positions. rewrite open_positions_fold. cbn [alerts].
    eexists. split; [reflexivity |].
    apply Forall_forall. intros a Ha.
    apply in_map_iff in Ha. destruct Ha as (ts & <- & Hts).
    unfold top_signals_list in Hts. apply in_map_iff in Hts.
    destruct Hts as (row & <- & Hrow).
    destruct (top_buy_signals_In S TOP_N (r :: df') row HS Hrow)
      as [Hin Hsig].
    exists row. repeat split; assumption.
Qed.

Lemma tab_opens_on_buy_rows_witness :
  let df := [ {| Stock := "AAPL"; Signal := 1; Price := Fin 100;
                 Score := Fin 5 |} ] in
  exists added,
    alerts (@process_exchange stable_sorter initial_state df)
    = alerts initial_state ++ added
    /\ Forall
         (fun a =>
            exists row,
              In row df /\ Signal row = 1%Z
              /\ a = NewBuy (Stock row) (round2 (Price row)))
         added.
Proof.
  intro df.
  apply (tab_opens_on_buy_rows stable_sorter initial_state df
           (insertion_sort_descending true)).
Defined.

(* ================================================================= *)
(** ** The chart lines *)

Lemma chart_hlines_length pos_list :
  List.length (chart_hlines pos_list) = (3 * open_count pos_list)%nat.
Proof.
  unfold chart_hlines.
  induction pos_list as [| pos rest IH]; [reflexivity |].
  cbn [flat_map]. rewrite length_app, IH, open_count_cons.
  unfold is_open. destruct (status pos); cbn [List.length]; lia.
Qed.

Lemma check_lots_open_count ticker df_price pos_list : forall cap log,
  (open_count (fst (fst (check_lots ticker df_price pos_list cap log)))
   <= open_count pos_list)%nat.
Proof.
  induction pos_list as [| pos rest IH]; intros cap log; [cbn; lia |].
  cbn [check_lots].
  pose proof (check_position_summary ticker df_price pos cap log) as H1.
  destruct (check_position ticker df_price (pos, cap, log))
    as [[pos' cap1] log1].
  specialize (IH cap1 log1).
  destruct (check_lots ticker df_price rest cap1 log1)
    as [[rest' cap2] log2].
  cbn [fst] in *. rewrite !open_count_cons. unfold is_open.
  destruct H1 as [_ [(Hs & _) | (Ho & Hc & _)]].
  - rewrite Hs. lia.
  - rewrite Ho, Hc. lia.
Qed.

(** X20.  The chart of a ticker draws three lines (stop loss,
    take-profit, trailing stop) for each open lot and none for a closed
    one, so a pass of the check loop, which closes lots and opens none,
    never leaves more lines to draw than there were. *)
Theorem chart_lines_follow_open_lots (ticker : string) (df_price : float)
  (pos_list : list position) (cap : float) (log : list alert) :
  List.length (chart_hlines pos_list) = (3 * open_count pos_list)%nat
  /\ chart_hlines (filter (fun pos => negb (is_open pos)) pos_list) = []
  /\ (List.length
        (chart_hlines
           (fst (fst (check_lots ticker df_price pos_list cap log))))
      <= List.length (chart_hlines pos_list))%nat.
Proof.
  split; [apply chart_hlines_length |]. split.
  - unfold chart_hlines.
    induction pos_list as [| pos rest IH]; [reflexivity |].
    cbn [filter]. unfold is_open at 1.
    destruct (status pos) eqn:E; cbn [negb]; [exact IH |].
    cbn [flat_map]. rewrite E. exact IH.
  - rewrite !chart_hlines_length.
    pose proof (check_lots_open_count ticker df_price pos_list cap log).
    lia.
Qed.
